(** * SmartTask Pro: the task engine of [src/App.tsx]

    A shallow embedding of the classification, lifecycle, timer, retention
    and statistics code of the application, and the properties of its
    specification proved (or refuted) on it.

    Conventions.
    - A JavaScript string is the sequence of its code units; the model keeps
      the code units below 256 ([Stdlib.Strings.String]).
    - A JavaScript number that the program uses as a counter of seconds or as
      an instant in milliseconds is an integer of [Z]; array lengths are [nat].
      Addition on a counter is the addition of doubles: exact up to 2^53 and
      rounded to the nearest double (ties to even) beyond, [plusOne].
    - React state setters [setTasks (prev => f prev)] are functions from the
      previous collection to the next one. *)

From Stdlib Require Import List Bool Arith ZArith Lia Ascii String.
From Stdlib Require Import Permutation.
Import ListNotations.

Local Open Scope Z_scope.
Local Open Scope list_scope.

(* ================================================================== *)
(** * Part I. Definitions *)
(* ================================================================== *)

(** ** JavaScript strings: the built-ins the program calls *)

Definition code (c : ascii) : N := N_of_ascii c.

(** WhiteSpace and LineTerminator code units of ECMAScript below 256:
    TAB, LF, VT, FF, CR, SPACE and NO-BREAK SPACE. *)
Definition isWhiteSpace (c : ascii) : bool :=
  let n := code c in
  (((9 <=? n) && (n <=? 13)) || (n =? 32) || (n =? 160))%N.

Definition isEmpty (s : string) : bool :=
  match s with
  | EmptyString => true
  | String _ _ => false
  end.

(** Dropping the characters that satisfy [p] from the front, and from the
    back, of a string. *)
Fixpoint stripStart (p : ascii -> bool) (s : string) : string :=
  match s with
  | EmptyString => EmptyString
  | String c r => if p c then stripStart p r else s
  end.

Fixpoint stripEnd (p : ascii -> bool) (s : string) : string :=
  match s with
  | EmptyString => EmptyString
  | String c r =>
      let r' := stripEnd p r in
      if p c && isEmpty r' then EmptyString else String c r'
  end.

Definition strip (p : ascii -> bool) (s : string) : string :=
  stripEnd p (stripStart p s).

(** [String.prototype.trim]. *)
Definition trim (s : string) : string := strip isWhiteSpace s.

Definition isUpper (c : ascii) : bool := ((65 <=? code c) && (code c <=? 90))%N.
Definition isLower (c : ascii) : bool := ((97 <=? code c) && (code c <=? 122))%N.
Definition isDigit (c : ascii) : bool := ((48 <=? code c) && (code c <=? 57))%N.
Definition isAlphaNum (c : ascii) : bool := isUpper c || isLower c || isDigit c.

(** Case mapping of one code unit, on the letters A-Z and a-z. *)
Definition lowerChar (c : ascii) : ascii :=
  if isUpper c then ascii_of_N (code c + 32) else c.

Definition upperChar (c : ascii) : ascii :=
  if isLower c then ascii_of_N (code c - 32) else c.

Fixpoint mapString (f : ascii -> ascii) (s : string) : string :=
  match s with
  | EmptyString => EmptyString
  | String c r => String (f c) (mapString f r)
  end.

(** [String.prototype.toLowerCase] and [toUpperCase]. *)
Definition toLowerCase (s : string) : string := mapString lowerChar s.
Definition toUpperCase (s : string) : string := mapString upperChar s.

(** ** JavaScript numbers: the integer-valued doubles *)

(** 2^53: up to it every integer is a double. *)
Definition TWO53 : Z := 9007199254740992.

(** The double nearest to a non-negative integer [a]: [a] itself below 2^53;
    above, the nearest multiple of the spacing [2^e] of the binade of [a],
    which leaves a significand of 53 bits, a tie going to the even
    significand. *)
Definition roundMagnitude (a : Z) : Z :=
  if a <? TWO53 then a
  else
    let e := Z.log2 a - 52 in
    let q := a / 2 ^ e in
    let r := a mod 2 ^ e in
    let half := 2 ^ (e - 1) in
    let q' := if r <? half then q
              else if half <? r then q + 1
              else if Z.even q then q else q + 1 in
    q' * 2 ^ e.

(** Rounding is symmetric in the sign. *)
Definition roundDouble (y : Z) : Z := Z.sgn y * roundMagnitude (Z.abs y).

(** [x + 1] on numbers: the exact sum, rounded. From a double [x] the sum
    never leaves the range of the finite doubles. *)
Definition plusOne (x : Z) : Z := roundDouble (x + 1).

(** The integers that are doubles. *)
Definition isDouble (x : Z) : bool := roundDouble x =? x.

(** ** types.ts *)

Inductive Priority : Type := LOW | MEDIUM | HIGH.

Definition Priority_eqb (p q : Priority) : bool :=
  match p, q with
  | LOW, LOW | MEDIUM, MEDIUM | HIGH, HIGH => true
  | _, _ => false
  end.

Record User : Type := mkUser { username : string; user_id : string }.

Record Task : Type := mkTask {
  id : string;
  text : string;
  completed : bool;
  createdAt : string;          (* ISO-8601, as written by toISOString *)
  priority : Priority;
  tags : list string;
  timeSpent : Z;               (* in seconds *)
  isTimerRunning : bool
}.

Record TaskStats : Type := mkStats {
  total : nat;
  pending : nat;
  completed_count : nat        (* the field [completed] of TaskStats *)
}.

(** ** constants.ts *)

(** [PRIORITY_KEYWORDS], in the order of its keys. *)
Definition PRIORITY_KEYWORDS : list (Priority * list string) :=
  [ (HIGH, ["urgent"; "asap"; "important"; "deadline"; "exam"; "final";
            "must"; "alert"; "crisis"]%string);
    (MEDIUM, ["call"; "email"; "meeting"; "review"; "buy"; "shop";
              "prepare"; "discuss"]%string);
    (LOW, []) ].

Definition TAG_MAPPING : list (string * string) :=
  [ ("study", "Education"); ("exam", "Academic"); ("meeting", "Work");
    ("project", "Work"); ("office", "Work"); ("gym", "Health");
    ("workout", "Health"); ("run", "Health"); ("buy", "Shopping");
    ("grocery", "Errands"); ("shop", "Shopping"); ("dinner", "Personal");
    ("family", "Personal") ]%string.

Definition STORAGE_KEY : string := "smart_task_pro_data".

(** Keyword list of one priority level ([PRIORITY_KEYWORDS[p]]). *)
Definition keywordsOf (p : Priority) : list string :=
  match find (fun e => Priority_eqb (fst e) p) PRIORITY_KEYWORDS with
  | Some e => snd e
  | None => []
  end.

(** Property lookup in a string-keyed table ([TAG_MAPPING[k]]). *)
Fixpoint lookup {A : Type} (k : string) (m : list (string * A)) : option A :=
  match m with
  | [] => None
  | (k', v) :: r => if String.eqb k' k then Some v else lookup k r
  end.

Definition includes (w : string) (l : list string) : bool :=
  existsb (String.eqb w) l.

(** ** utils/helpers.ts: the classifier and the text helper

    [src/utils/helpers.ts] is imported by [App.tsx] but is not among the
    sources; its functions are modelled from the specification. *)

(** Modelled from the spec: [capitalize] of utils/helpers.ts is missing;
    "normalizes capitalization (first letter upper-cased, rest
    unchanged)". *)
Definition capitalize (s : string) : string :=
  match s with
  | EmptyString => EmptyString
  | String c r => String (upperChar c) r
  end.

Definition flush (cur : string) : list string :=
  if isEmpty cur then [] else [cur].

(** The whitespace-separated words of [s]; [cur] is the word being read. *)
Fixpoint splitWords (cur s : string) : list string :=
  match s with
  | EmptyString => flush cur
  | String c r =>
      if isWhiteSpace c then flush cur ++ splitWords EmptyString r
      else splitWords (cur ++ String c EmptyString) r
  end.

(** Modelled from the spec: the tokenizer used by [determinePriority] and
    [determineTags] of utils/helpers.ts is missing; "tokenizes text
    case-insensitively into words", "tokenization must strip
    non-alphanumeric boundary characters". *)
Definition tokenize (txt : string) : list string :=
  filter (fun w => negb (isEmpty w))
    (map (strip (fun c => negb (isAlphaNum c)))
       (splitWords EmptyString (toLowerCase txt))).

(** A level matches when one of its keywords is a token. *)
Definition levelMatches (toks : list string) (e : Priority * list string) : bool :=
  existsb (fun k => includes k toks) (snd e).

(** Modelled from the spec: [determinePriority] of utils/helpers.ts is
    missing; "scan a fixed ordered table of keyword sets, one per priority
    level from highest to lowest severity. The first level whose keyword set
    intersects the token set wins; if none match, priority is Low". *)
Definition determinePriority (txt : string) : Priority :=
  match find (levelMatches (tokenize txt)) PRIORITY_KEYWORDS with
  | Some e => fst e
  | None => LOW
  end.

Fixpoint collectTags (toks acc : list string) : list string :=
  match toks with
  | [] => acc
  | w :: r =>
      match lookup w TAG_MAPPING with
      | Some cat =>
          if includes cat acc then collectTags r acc
          else collectTags r (acc ++ [cat])
      | None => collectTags r acc
      end
  end.

(** Modelled from the spec: [determineTags] of utils/helpers.ts is missing;
    "for each token, look up a fixed keyword->category mapping; the
    resulting tag set is the set of unique categories across all matching
    tokens, duplicates collapsed. Tokens with no mapping contribute
    nothing". *)
Definition determineTags (txt : string) : list string :=
  collectTags (tokenize txt) [].

(** ** App.tsx: the task collection and its operations *)

(** The pieces of component state that [addTask] reads and writes. *)
Record AppState : Type := mkApp {
  tasks : list Task;
  inputValue : string;
  error : option string
}.

Definition VALIDATION_MESSAGE : string := "Please enter a valid task description.".

(** [addTask]; [uuid] is the value of [crypto.randomUUID()] and [nowIso] the
    value of [new Date().toISOString()] at the call. *)
Definition addTask (uuid nowIso : string) (st : AppState) : AppState :=
  let trimmedText := trim (inputValue st) in
  if isEmpty trimmedText then
    mkApp (tasks st) (inputValue st) (Some VALIDATION_MESSAGE)
  else
    let newTask :=
      mkTask uuid (capitalize trimmedText) false nowIso
             (determinePriority trimmedText) (determineTags trimmedText)
             0 false in
    mkApp (newTask :: tasks st) EmptyString None.

(** The callback of [setTimeout(() => setError(null), 3000)]. *)
Definition clearError (st : AppState) : AppState :=
  mkApp (tasks st) (inputValue st) None.

Definition toggleTask (i : string) (prev : list Task) : list Task :=
  map (fun t =>
         if String.eqb (id t) i then
           mkTask (id t) (text t) (negb (completed t)) (createdAt t)
                  (priority t) (tags t) (timeSpent t)
                  (if negb (completed t) then false else isTimerRunning t)
         else t) prev.

Definition toggleTimer (i : string) (prev : list Task) : list Task :=
  map (fun t =>
         if String.eqb (id t) i then
           mkTask (id t) (text t) (completed t) (createdAt t)
                  (priority t) (tags t) (timeSpent t)
                  (negb (isTimerRunning t))
         else t) prev.

Definition deleteTask (i : string) (prev : list Task) : list Task :=
  filter (fun t => negb (String.eqb (id t) i)) prev.

Definition editTask (i newText : string) (prev : list Task) : list Task :=
  if isEmpty (trim newText) then prev
  else
    map (fun t =>
           if String.eqb (id t) i then
             mkTask (id t) (capitalize (trim newText)) (completed t)
                    (createdAt t) (priority t) (tags t) (timeSpent t)
                    (isTimerRunning t)
           else t) prev.

Definition clearCompleted (prev : list Task) : list Task :=
  filter (fun t => negb (completed t)) prev.

(** The callback of the one-second interval of the global timer. The sum
    [t.timeSpent + 1] is a sum of numbers: [timeSpent] is declared [number]
    in types.ts, and a task is a record of that type. *)
Definition tick (prev : list Task) : list Task :=
  map (fun t =>
         if isTimerRunning t then
           mkTask (id t) (text t) (completed t) (createdAt t)
                  (priority t) (tags t) (plusOne (timeSpent t))
                  (isTimerRunning t)
         else t) prev.

(** The interval is armed only for a logged-in user with a running task. *)
Definition timerArmed (currentUser : option User) (ts : list Task) : bool :=
  match currentUser with
  | None => false
  | Some _ => negb (List.length (filter isTimerRunning ts) =? 0)%nat
  end.

(** The events that change the collection. *)
Inductive Op : Type :=
| Create (rawText uuid nowIso : string)
| ToggleComplete (i : string)
| ToggleTimer (i : string)
| Edit (i newText : string)
| Delete (i : string)
| ClearCompleted
| Tick.

Definition step (o : Op) (ts : list Task) : list Task :=
  match o with
  | Create raw uuid nowIso => tasks (addTask uuid nowIso (mkApp ts raw None))
  | ToggleComplete i => toggleTask i ts
  | ToggleTimer i => toggleTimer i ts
  | Edit i newText => editTask i newText ts
  | Delete i => deleteTask i ts
  | ClearCompleted => clearCompleted ts
  | Tick => tick ts
  end.

Fixpoint run (ops : list Op) (ts : list Task) : list Task :=
  match ops with
  | [] => ts
  | o :: r => run r (step o ts)
  end.

(** ** App.tsx: session load, over the parsed JSON of the persisted blob *)

(** Values of [JSON.parse]; [JUndefined] is what reading an absent property
    gives. Numbers are the integers. *)
#[warnings="-register-all"]
Inductive JsValue : Type :=
| JUndefined
| JNull
| JBool (b : bool)
| JNum (n : Z)
| JStr (s : string)
| JArr (items : list JsValue)
| JObj (fields : list (string * JsValue)).

(** A persisted record: the own properties of an object, in order. *)
Definition JsObject : Type := list (string * JsValue).

(** [ToBoolean]. *)
Definition truthy (v : JsValue) : bool :=
  match v with
  | JUndefined | JNull => false
  | JBool b => b
  | JNum n => negb (n =? 0)
  | JStr s => negb (isEmpty s)
  | JArr _ | JObj _ => true
  end.

(** [t.k]. *)
Definition getField (k : string) (t : JsObject) : JsValue :=
  match lookup k t with
  | Some v => v
  | None => JUndefined
  end.

(** [{ ...t, k: v }]: an existing property keeps its place, a new one is
    added last. *)
Fixpoint setField (k : string) (v : JsValue) (t : JsObject) : JsObject :=
  match t with
  | [] => [(k, v)]
  | (k', v') :: r =>
      if String.eqb k' k then (k', v) :: r else (k', v') :: setField k v r
  end.

Definition isNumber (v : JsValue) : bool :=
  match v with JNum _ => true | _ => false end.

Definition isBoolean (v : JsValue) : bool :=
  match v with JBool _ => true | _ => false end.

Definition DAY_MS : Z := 24 * 60 * 60 * 1000.

Section Clock.

(** [new Date(v).getTime()], [None] for an invalid date: a built-in. *)
Variable timeValue : JsValue -> option Z.
(** The number of the calendar day of an instant in the local time zone. *)
Variable localDay : Z -> Z.
(** The instant of the call, [Date.now()]. *)
Variable now : Z.

(** Modelled from the spec: [isWithinLast30Days] of utils/helpers.ts is
    missing; "keep only records whose creation timestamp is within the
    last 30 days (inclusive boundary semantics: a record created exactly
    30 days ago at the same time-of-day is retained; strictly older is
    dropped)". *)
Definition isWithinLast30Days (d : JsValue) : bool :=
  match timeValue d with
  | Some t => now - 30 * DAY_MS <=? t
  | None => false
  end.

(** Modelled from the spec: [isToday] of utils/helpers.ts is missing;
    "creation date is today (same calendar day as now)". *)
Definition isToday (d : string) : bool :=
  match timeValue (JStr d) with
  | Some t => localDay t =? localDay now
  | None => false
  end.

(** The mapping of the load effect:
    [{ ...t, timeSpent: t.timeSpent || 0, isTimerRunning: !!t.isTimerRunning }]. *)
Definition clean (t : JsObject) : JsObject :=
  setField "isTimerRunning" (JBool (truthy (getField "isTimerRunning" t)))
    (setField "timeSpent"
       (if truthy (getField "timeSpent" t) then getField "timeSpent" t
        else JNum 0) t).

Definition retained (parsed : list JsObject) : list JsObject :=
  filter (fun t => isWithinLast30Days (getField "createdAt" t)) parsed.

(** The load effect: [storage k] is the parsed value of the item that
    [localStorage] holds under the key [k], [None] when it has none. *)
Definition loadTasks (currentUser : option User)
    (storage : string -> option (list JsObject)) : list JsObject :=
  match currentUser with
  | Some u =>
      let userStorageKey := (STORAGE_KEY ++ "_" ++ username u)%string in
      if isEmpty userStorageKey then []
      else
        let parsed :=
          match storage userStorageKey with
          | Some l => l
          | None => []
          end in
        map clean (retained parsed)
  | None => []
  end.

(** ** App.tsx: the statistics *)

Definition monthlyStats (ts : list Task) : TaskStats :=
  mkStats (List.length ts)
          (List.length (filter (fun t => negb (completed t)) ts))
          (List.length (filter (fun t => completed t) ts)).

Definition dailyStats (ts : list Task) : TaskStats :=
  let pendingCount := List.length (filter (fun t => negb (completed t)) ts) in
  let completedTodayCount :=
    List.length (filter (fun t => completed t && isToday (createdAt t)) ts) in
  mkStats (pendingCount + completedTodayCount) pendingCount completedTodayCount.

End Clock.

(** ** A concrete clock, for the examples

    Instants written the way [toISOString] writes them,
    [YYYY-MM-DDTHH:mm:ss.sssZ], and calendar days in UTC. *)

Definition digitVal (c : ascii) : option Z :=
  if isDigit c then Some (Z.of_N (code c) - 48) else None.

(** Reads [n] decimal digits. *)
Fixpoint readDigits (n : nat) (acc : Z) (s : string) : option (Z * string) :=
  match n with
  | O => Some (acc, s)
  | S n' =>
      match s with
      | EmptyString => None
      | String c r =>
          match digitVal c with
          | Some d => readDigits n' (10 * acc + d) r
          | None => None
          end
      end
  end.

Definition expect (c : ascii) (s : string) : option string :=
  match s with
  | String c' r => if Ascii.eqb c c' then Some r else None
  | EmptyString => None
  end.

(** Days from 1970-01-01 to the given day of the proleptic Gregorian
    calendar. *)
Definition daysFromCivil (y m d : Z) : Z :=
  let y' := if m <=? 2 then y - 1 else y in
  let era := y' / 400 in
  let yoe := y' - era * 400 in
  let doy := (153 * (if 2 <? m then m - 3 else m + 9) + 2) / 5 + d - 1 in
  let doe := yoe * 365 + yoe / 4 - yoe / 100 + doy in
  era * 146097 + doe - 719468.

Definition bindOpt {A B : Type} (x : option A) (f : A -> option B) : option B :=
  match x with
  | Some a => f a
  | None => None
  end.

Notation "'do' x <- e ; k" := (bindOpt e (fun x => k))
  (at level 10, x pattern, e at level 100, k at level 200).

Definition parseIso (s : string) : option Z :=
  do (y, s) <- readDigits 4 0 s;
  do s <- expect "-" s;
  do (mo, s) <- readDigits 2 0 s;
  do s <- expect "-" s;
  do (d, s) <- readDigits 2 0 s;
  do s <- expect "T" s;
  do (h, s) <- readDigits 2 0 s;
  do s <- expect ":" s;
  do (mi, s) <- readDigits 2 0 s;
  do s <- expect ":" s;
  do (sec, s) <- readDigits 2 0 s;
  do s <- expect "." s;
  do (ms, s) <- readDigits 3 0 s;
  do s <- expect "Z" s;
  if isEmpty s && (1 <=? mo) && (mo <=? 12) && (1 <=? d) && (d <=? 31)
     && (h <? 24) && (mi <? 60) && (sec <? 60)
  then Some (daysFromCivil y mo d * DAY_MS
             + ((h * 60 + mi) * 60 + sec) * 1000 + ms)
  else None.

Definition isoTimeValue (v : JsValue) : option Z :=
  match v with
  | JStr s => parseIso s
  | JNum n => Some n
  | _ => None
  end.

Definition utcDay (t : Z) : Z := t / DAY_MS.

(** A completed task of the day before, with seven seconds on its timer. *)
Definition walkDone : Task :=
  mkTask "id-0" "Walk" true "2026-11-01T08:00:00.000Z" LOW [] 7 false.

(** A pending task and a task completed on the day it was created. *)
Definition reportPending : Task :=
  mkTask "id-1" "Email the report" false "2026-10-20T10:30:00.000Z" MEDIUM [] 0 false.

Definition gymDoneToday : Task :=
  mkTask "id-2" "Gym" true "2026-11-02T07:15:00.000Z" LOW ["Health"%string] 1800 false.

(** The instant 2026-11-02T09:00:00.000Z. *)
Definition nowExample : Z := 1793610000000.

Definition ana : User := mkUser "ana" "u-1".

Definition persistedRecord (i txt : string) (done : bool) (created : string)
    (rest : JsObject) : JsObject :=
  [("id", JStr i); ("text", JStr txt); ("completed", JBool done);
   ("createdAt", JStr created); ("priority", JStr "Low"); ("tags", JArr [])]%string
  ++ rest.

(** A persisted blob: a record of the day before whose timeSpent is a
    string and whose isTimerRunning is absent; records created exactly 30,
    31 and 29 days before [nowExample]. *)
Definition readYesterday : JsObject :=
  persistedRecord "id-3" "Read" false "2026-11-01T08:00:00.000Z"
    [("timeSpent", JStr "90")]%string.

Definition thirtyDaysOld : JsObject :=
  persistedRecord "id-4" "Plan" false "2026-10-03T09:00:00.000Z"
    [("isTimerRunning", JNum 1)]%string.

Definition thirtyOneDaysOld : JsObject :=
  persistedRecord "id-5" "Swim" true "2026-10-02T09:00:00.000Z"
    [("timeSpent", JNum 60); ("isTimerRunning", JBool false)]%string.

Definition twentyNineDaysOld : JsObject :=
  persistedRecord "id-6" "Cook" true "2026-10-04T09:00:00.000Z"
    [("timeSpent", JNum 0); ("isTimerRunning", JNull)]%string.

Definition persistedExample : list JsObject :=
  [readYesterday; thirtyDaysOld; thirtyOneDaysOld; twentyNineDaysOld].

Definition storageExample (k : string) : option (list JsObject) :=
  if String.eqb k "smart_task_pro_data_ana" then Some persistedExample else None.

(** ** The vocabulary of the specification *)

(** "isTimerRunning=true and completed=true never hold simultaneously". *)
Definition consistent (t : Task) : Prop :=
  ~ (isTimerRunning t = true /\ completed t = true).

(** The timer of a completed task is not started: no task that
    [toggleTimer i] would flip is completed. *)
Definition timerAllowed (o : Op) (ts : list Task) : bool :=
  match o with
  | ToggleTimer i =>
      forallb (fun t => negb (String.eqb (id t) i && completed t)) ts
  | _ => true
  end.

Fixpoint allowed (ops : list Op) (ts : list Task) : bool :=
  match ops with
  | [] => true
  | o :: r => timerAllowed o ts && allowed r (step o ts)
  end.

(** A text made of white space only. *)
Fixpoint allWhite (s : string) : bool :=
  match s with
  | EmptyString => true
  | String c r => isWhiteSpace c && allWhite r
  end.

(** "the keyword set intersects the token set". *)
Definition intersects (toks kws : list string) : Prop :=
  exists w, In w toks /\ In w kws.

(** Two lists that hold the same set of strings. *)
Definition sameSet (l1 l2 : list string) : Prop :=
  forall x, In x l1 <-> In x l2.

(** "count of the tasks with ...". *)
Fixpoint count (p : Task -> bool) (ts : list Task) : nat :=
  match ts with
  | [] => O
  | t :: r => if p t then S (count p r) else count p r
  end.

(** The fields of a task that no operation writes after its creation, and
    the ones that [editTask] leaves alone. *)
Definition sameIdentity (t t' : Task) : Prop :=
  id t' = id t /\ createdAt t' = createdAt t /\
  priority t' = priority t /\ tags t' = tags t.

Definition isTick (o : Op) : bool :=
  match o with Tick => true | _ => false end.

(** A record that one of the [Create] events of [ops] stamped. *)
Definition createdDuring (ops : list Op) (t : Task) : Prop :=
  exists raw uuid nowIso,
    In (Create raw uuid nowIso) ops /\ id t = uuid /\ createdAt t = nowIso.

(** The record that [Create raw uuid nowIso] adds, when it adds one. *)
Definition createdBy (o : Op) (t : Task) : Prop :=
  exists raw uuid nowIso,
    o = Create raw uuid nowIso /\ id t = uuid /\ createdAt t = nowIso /\
    completed t = false /\ timeSpent t = 0 /\ isTimerRunning t = false.

(** ** The rest of App.tsx: views, keys and persistence *)

(** The enums [FilterStatus] and [AppView] of types.ts. *)
Inductive FilterStatus : Type := ALL | PENDING | COMPLETED.

Inductive AppView : Type := DASHBOARD | RECORDS.

(** The string values of the enum [Priority] of types.ts. *)
Definition priorityString (p : Priority) : string :=
  match p with
  | LOW => "Low"
  | MEDIUM => "Medium"
  | HIGH => "High"
  end.

Definition THEME_KEY : string := "smart_task_pro_theme".
Definition SESSION_KEY : string := "smart_task_pro_session".

(** [userStorageKey]: the key of the collection of the current user. *)
Definition userStorageKey (currentUser : option User) : string :=
  match currentUser with
  | Some u => (STORAGE_KEY ++ "_" ++ username u)%string
  | None => EmptyString
  end.

(** [filteredTasks]. *)
Definition filteredTasks (filter : FilterStatus) (ts : list Task) : list Task :=
  match filter with
  | PENDING => List.filter (fun t => negb (completed t)) ts
  | COMPLETED => List.filter (fun t => completed t) ts
  | ALL => ts
  end.

(** The property [hasCompleted] handed to the filter bar. *)
Definition hasCompleted (ts : list Task) : bool :=
  (0 <? List.length (filter (fun t => completed t) ts))%nat.

(** The dependency [tasks.some(t => t.isTimerRunning)] of the timer effect. *)
Definition someRunning (ts : list Task) : bool :=
  existsb isTimerRunning ts.

(** [activeStats]: the dashboard shows the daily snapshot, the records view
    the monthly one. *)
Definition activeStats (timeValue : JsValue -> option Z) (localDay : Z -> Z)
    (now : Z) (currentView : AppView) (ts : list Task) : TaskStats :=
  match currentView with
  | DASHBOARD => dailyStats timeValue localDay now ts
  | RECORDS => monthlyStats ts
  end.

(** What [JSON.stringify] writes for a task, read back by [JSON.parse]: the
    properties in the order in which [addTask] builds them. *)
Definition toObject (t : Task) : JsObject :=
  [ ("id", JStr (id t)); ("text", JStr (text t));
    ("completed", JBool (completed t)); ("createdAt", JStr (createdAt t));
    ("priority", JStr (priorityString (priority t)));
    ("tags", JArr (map JStr (tags t)));
    ("timeSpent", JNum (timeSpent t));
    ("isTimerRunning", JBool (isTimerRunning t)) ]%string.

(** [localStorage], seen through [JSON.parse]: the parsed array held under
    each key that holds a collection. *)
Definition Storage : Type := string -> option (list JsObject).

(** [localStorage.setItem(k, JSON.stringify(v))]. *)
Definition setItem (k : string) (v : list JsObject) (st : Storage) : Storage :=
  fun k' => if String.eqb k' k then Some v else st k'.

(** The persistence effect: with a user logged in, the collection is written
    under the key of that user; otherwise nothing is written. *)
Definition persistTasks (currentUser : option User) (ts : list JsObject)
    (st : Storage) : Storage :=
  match currentUser with
  | Some _ =>
      if isEmpty (userStorageKey currentUser) then st
      else setItem (userStorageKey currentUser) ts st
  | None => st
  end.

(** The identifier an event is aimed at. *)
Definition target (o : Op) : option string :=
  match o with
  | ToggleComplete i | ToggleTimer i | Edit i _ | Delete i => Some i
  | Create _ _ _ | ClearCompleted | Tick => None
  end.

Definition hasId (i : string) (t : Task) : bool := String.eqb (id t) i.

(** Every [Create] of the sequence comes with an identifier that no task of
    the collection has at that moment. *)
Definition freshCreate (o : Op) (ts : list Task) : bool :=
  match o with
  | Create _ uuid _ => negb (existsb (hasId uuid) ts)
  | _ => true
  end.

Fixpoint freshRun (ops : list Op) (ts : list Task) : bool :=
  match ops with
  | [] => true
  | o :: r => freshCreate o ts && freshRun r (step o ts)
  end.

(** A task with [n] more seconds on its timer. *)
Definition addSeconds (n : Z) (t : Task) : Task :=
  mkTask (id t) (text t) (completed t) (createdAt t) (priority t) (tags t)
         (timeSpent t + n) (isTimerRunning t).

(** The events that rewrite tasks where they stand. *)
Definition inPlace (o : Op) : bool :=
  match o with
  | ToggleComplete _ | ToggleTimer _ | Edit _ _ | Tick => true
  | Create _ _ _ | Delete _ | ClearCompleted => false
  end.

(** A task with the given time on its timer. *)
Definition withTime (z : Z) (t : Task) : Task :=
  mkTask (id t) (text t) (completed t) (createdAt t) (priority t) (tags t)
         z (isTimerRunning t).

(** [n] more seconds keep the time of [t] among the integers that the
    addition of numbers handles exactly. *)
Definition exactFor (n : nat) (t : Task) : Prop :=
  - TWO53 <= timeSpent t /\ timeSpent t + Z.of_nat n <= TWO53.

(** A running task whose timer stands at 2^53 seconds. *)
Definition marathon : Task :=
  mkTask "id-8" "Marathon" false "2026-11-02T08:00:00.000Z" LOW [] TWO53 true.

(** Whether a text occurs inside another one. *)
Fixpoint occursIn (k s : string) : bool :=
  String.prefix k s ||
  match s with
  | EmptyString => false
  | String _ r => occursIn k r
  end.

(* ================================================================== *)
(** * Part II. Properties *)
(* ================================================================== *)

Local Open Scope string_scope.

(** ** Strings *)

Lemma isEmpty_true (s : string) : isEmpty s = true <-> s = "".
Proof. destruct s; simpl; split; congruence. Qed.

Lemma isEmpty_false (s : string) : isEmpty s = false <-> s <> "".
Proof. destruct s; simpl; split; congruence. Qed.

Lemma stripStart_all (p : ascii -> bool) (s : string) :
  (forall c, p c = true) -> stripStart p s = "".
Proof.
  intros Hp; induction s as [|c r IH]; simpl; [reflexivity|].
  now rewrite Hp.
Qed.

Lemma trim_allWhite (s : string) : allWhite s = true -> trim s = "".
Proof.
  unfold trim, strip.
  induction s as [|c r IH]; simpl; [reflexivity|].
  intros H; apply andb_true_iff in H as [Hc Hr].
  rewrite Hc. now apply IH.
Qed.

Lemma lowerChar_upperChar (c : ascii) : lowerChar (upperChar c) = lowerChar c.
Proof.
  destruct c as [[] [] [] [] [] [] [] []]; reflexivity.
Qed.

Lemma lowerChar_idem (c : ascii) : lowerChar (lowerChar c) = lowerChar c.
Proof.
  destruct c as [[] [] [] [] [] [] [] []]; reflexivity.
Qed.

Lemma toLowerCase_toUpperCase (s : string) :
  toLowerCase (toUpperCase s) = toLowerCase s.
Proof.
  induction s as [|c r IH]; simpl; [reflexivity|].
  unfold toLowerCase, toUpperCase in *; simpl.
  now rewrite lowerChar_upperChar, IH.
Qed.

Lemma toLowerCase_idem (s : string) :
  toLowerCase (toLowerCase s) = toLowerCase s.
Proof.
  induction s as [|c r IH]; simpl; [reflexivity|].
  unfold toLowerCase in *; simpl.
  now rewrite lowerChar_idem, IH.
Qed.

(** ** Numbers *)

Section Numbers.

Local Open Scope Z_scope.

Lemma TWO53_pow : TWO53 = 2 ^ 53.
Proof. reflexivity. Qed.

(** The shape of the rounding from 2^53 on. *)
Lemma roundMagnitude_shape (a : Z) :
  TWO53 <= a ->
  exists e q r q',
    e = Z.log2 a - 52 /\ 1 <= e /\
    a = q * 2 ^ e + r /\ 0 <= r < 2 ^ e /\
    2 ^ 52 <= q < 2 ^ 53 /\
    q <= q' <= q + 1 /\
    roundMagnitude a = q' * 2 ^ e.
Proof.
  intros Ha.
  assert (Hpos : 0 < a) by (unfold TWO53 in Ha; lia).
  pose proof (Z.log2_spec a Hpos) as [Hlo Hhi].
  assert (Hk : 53 <= Z.log2 a).
  { apply Z.log2_le_pow2; [lia|]. rewrite <- TWO53_pow. exact Ha. }
  set (e := Z.log2 a - 52) in *.
  assert (He : 1 <= e) by (unfold e; lia).
  assert (Hp : 0 < 2 ^ e) by (apply Z.pow_pos_nonneg; lia).
  assert (Hk1 : 2 ^ Z.log2 a = 2 ^ 52 * 2 ^ e).
  { rewrite <- Z.pow_add_r by lia. f_equal. unfold e. lia. }
  assert (Hk2 : 2 ^ Z.succ (Z.log2 a) = 2 ^ 53 * 2 ^ e).
  { rewrite <- Z.pow_add_r by lia. f_equal. unfold e. lia. }
  pose proof (Z.div_mod a (2 ^ e) ltac:(lia)) as Hdm.
  pose proof (Z.mod_pos_bound a (2 ^ e) Hp) as Hr.
  exists e, (a / 2 ^ e), (a mod 2 ^ e).
  assert (Hq : 2 ^ 52 <= a / 2 ^ e < 2 ^ 53).
  { split.
    - apply Z.div_le_lower_bound; [lia|]. rewrite Z.mul_comm. lia.
    - apply Z.div_lt_upper_bound; [lia|]. rewrite Z.mul_comm. lia. }
  unfold roundMagnitude. apply Z.ltb_ge in Ha. rewrite Ha. fold e.
  cbv zeta.
  destruct (a mod 2 ^ e <? 2 ^ (e - 1)).
  - exists (a / 2 ^ e). repeat split; try lia.
  - destruct (2 ^ (e - 1) <? a mod 2 ^ e).
    + exists (a / 2 ^ e + 1). repeat split; try lia.
    + destruct (Z.even (a / 2 ^ e)).
      * exists (a / 2 ^ e). repeat split; try lia.
      * exists (a / 2 ^ e + 1). repeat split; try lia.
Qed.

Lemma roundMagnitude_small (a : Z) : a < TWO53 -> roundMagnitude a = a.
Proof. intros H. unfold roundMagnitude. apply Z.ltb_lt in H. now rewrite H. Qed.

Lemma roundMagnitude_TWO53 : roundMagnitude TWO53 = TWO53.
Proof. reflexivity. Qed.

Lemma pow2_ge_2 (e : Z) : 1 <= e -> 2 <= 2 ^ e.
Proof.
  intros He. change 2 with (2 ^ 1) at 1. apply Z.pow_le_mono_r; lia.
Qed.

(** A multiple of a power of two with a factor of 53 bits is a double. *)
Lemma roundMagnitude_multiple (c e : Z) :
  0 <= e -> 2 ^ 52 <= c < 2 ^ 53 ->
  roundMagnitude (c * 2 ^ e) = c * 2 ^ e.
Proof.
  intros He Hc.
  assert (Hp : 0 < 2 ^ e) by (apply Z.pow_pos_nonneg; lia).
  destruct (Z.eq_dec e 0) as [->|Hne].
  - rewrite Z.pow_0_r, Z.mul_1_r. apply roundMagnitude_small.
    rewrite TWO53_pow. lia.
  - assert (He1 : 1 <= e) by lia.
    pose proof (pow2_ge_2 e He1) as H2.
    assert (Hlog : Z.log2 (c * 2 ^ e) = 52 + e).
    { apply Z.log2_unique; [lia|]. split.
      - rewrite Z.pow_add_r by lia. apply Z.mul_le_mono_nonneg_r; lia.
      - replace (Z.succ (52 + e)) with (53 + e) by lia.
        rewrite Z.pow_add_r by lia. apply Z.mul_lt_mono_pos_r; lia. }
    unfold roundMagnitude.
    assert (Hbig : (c * 2 ^ e <? TWO53) = false).
    { apply Z.ltb_ge. rewrite TWO53_pow.
      change (2 ^ 53) with (2 ^ 52 * 2). nia. }
    rewrite Hbig, Hlog. replace (52 + e - 52) with e by lia.
    cbv zeta. rewrite Z.mod_mul by lia. rewrite Z.div_mul by lia.
    assert (Hh : (0 <? 2 ^ (e - 1)) = true).
    { apply Z.ltb_lt. apply Z.pow_pos_nonneg; lia. }
    now rewrite Hh.
Qed.

Lemma roundMagnitude_idem (a : Z) :
  roundMagnitude (roundMagnitude a) = roundMagnitude a.
Proof.
  destruct (Z_lt_le_dec a TWO53) as [Hs|Hb].
  - now rewrite !(roundMagnitude_small a Hs).
  - destruct (roundMagnitude_shape a Hb)
      as [e [q [r [q' [He [He1 [Ha [Hr [Hq [Hq' ->]]]]]]]]]].
    destruct (Z.eq_dec q' (2 ^ 53)) as [->|Hne].
    + replace (2 ^ 53 * 2 ^ e) with (2 ^ 52 * 2 ^ (e + 1)).
      * apply roundMagnitude_multiple; lia.
      * rewrite (Z.pow_add_r 2 e 1) by lia.
        change (2 ^ 53) with (2 ^ 52 * 2 ^ 1). ring.
    + apply roundMagnitude_multiple; lia.
Qed.

Lemma roundMagnitude_nonneg (a : Z) : 0 <= a -> 0 <= roundMagnitude a.
Proof.
  intros H0. destruct (Z_lt_le_dec a TWO53) as [Hs|Hb].
  - now rewrite (roundMagnitude_small a Hs).
  - destruct (roundMagnitude_shape a Hb)
      as [e [q [r [q' [He [He1 [Ha [Hr [Hq [Hq' ->]]]]]]]]]].
    assert (0 < 2 ^ e) by (apply Z.pow_pos_nonneg; lia). nia.
Qed.

(** A double from 2^53 on is a multiple of the spacing of its binade. *)
Lemma double_multiple (m : Z) :
  TWO53 <= m -> roundMagnitude m = m ->
  exists c, m = c * 2 ^ (Z.log2 m - 52).
Proof.
  intros Hb Hd.
  destruct (roundMagnitude_shape m Hb)
    as [e [q [r [q' [He [He1 [Ha [Hr [Hq [Hq' Hm]]]]]]]]]].
  exists q'. rewrite <- He. congruence.
Qed.

(** Rounding [m + 1] never goes below a double [m]. *)
Lemma roundMagnitude_up (m : Z) :
  0 <= m -> roundMagnitude m = m -> m <= roundMagnitude (m + 1).
Proof.
  intros H0 Hd.
  destruct (Z_lt_le_dec (m + 1) TWO53) as [Hs|Hb].
  - rewrite (roundMagnitude_small _ Hs). lia.
  - destruct (roundMagnitude_shape (m + 1) Hb)
      as [e [q [r [q' [He [He1 [Ha [Hr [Hq [Hq' ->]]]]]]]]]].
    assert (Hp : 0 < 2 ^ e) by (apply Z.pow_pos_nonneg; lia).
    pose proof (pow2_ge_2 e He1) as H2.
    assert (Hr1 : r <= 1); [|nia].
    destruct (Z_lt_le_dec m TWO53) as [Hms|Hmb].
    + (* m + 1 = 2^53 *)
      assert (Hm : m + 1 = TWO53) by lia.
      rewrite Hm in He. change (Z.log2 TWO53) with 53 in He.
      subst e. rewrite Hm in Ha. change (2 ^ (53 - 52)) with 2 in *.
      unfold TWO53 in Ha. lia.
    + destruct (double_multiple m Hmb Hd) as [c Hc].
      assert (Hm0 : 0 < m) by (unfold TWO53 in Hmb; lia).
      pose proof (Z.log2_spec m Hm0) as [Hlo Hhi].
      pose proof (Z.log2_spec (m + 1) ltac:(lia)) as [Hlo' Hhi'].
      assert (Hle : Z.log2 m <= Z.log2 (m + 1))
        by (apply Z.log2_le_mono; lia).
      destruct (Z.eq_dec (Z.log2 m) (Z.log2 (m + 1))) as [Heq|Hneq].
      * (* the same binade: m is a multiple of 2^e *)
        rewrite Heq, <- He in Hc.
        assert (Hrq : r = 1 + (c - q) * 2 ^ e) by lia.
        assert (c - q = 0) by nia. lia.
      * (* m + 1 is the power of two that opens the next binade *)
        assert (Hlt : Z.succ (Z.log2 m) <= Z.log2 (m + 1)) by lia.
        assert (Hpw : 2 ^ Z.succ (Z.log2 m) <= 2 ^ Z.log2 (m + 1))
          by (apply Z.pow_le_mono_r; lia).
        assert (Hm1 : m + 1 = 2 ^ Z.log2 (m + 1)) by lia.
        assert (Hk : 2 ^ Z.log2 (m + 1) = 2 ^ 52 * 2 ^ e).
        { rewrite <- Z.pow_add_r by lia. f_equal. lia. }
        assert (Hrq : r = (2 ^ 52 - q) * 2 ^ e) by lia.
        assert (2 ^ 52 - q = 0) by nia. lia.
Qed.

(** Rounding [m - 1] never goes above a double [m]. *)
Lemma roundMagnitude_down (m : Z) :
  1 <= m -> roundMagnitude m = m -> roundMagnitude (m - 1) <= m.
Proof.
  intros H1 Hd.
  destruct (Z_lt_le_dec (m - 1) TWO53) as [Hs|Hb].
  - rewrite (roundMagnitude_small _ Hs). lia.
  - destruct (roundMagnitude_shape (m - 1) Hb)
      as [e [q [r [q' [He [He1 [Ha [Hr [Hq [Hq' ->]]]]]]]]]].
    assert (Hp : 0 < 2 ^ e) by (apply Z.pow_pos_nonneg; lia).
    assert (Hmb : TWO53 <= m) by lia.
    destruct (double_multiple m Hmb Hd) as [c Hc].
    assert (Hle : Z.log2 (m - 1) <= Z.log2 m)
      by (apply Z.log2_le_mono; lia).
    set (d := Z.log2 m - Z.log2 (m - 1)) in *.
    assert (Hsplit : 2 ^ (Z.log2 m - 52) = 2 ^ d * 2 ^ e).
    { rewrite <- Z.pow_add_r by (unfold d; lia). f_equal. unfold d. lia. }
    rewrite Hsplit in Hc.
    assert (Hd0 : 0 < 2 ^ d) by (apply Z.pow_pos_nonneg; unfold d; lia).
    set (c' := c * 2 ^ d) in *.
    assert (Hc' : m = c' * 2 ^ e) by (unfold c'; lia).
    assert (q + 1 <= c') by nia.
    nia.
Qed.

Lemma roundDouble_nonneg (y : Z) : 0 <= y -> roundDouble y = roundMagnitude y.
Proof.
  intros H. unfold roundDouble. destruct (Z.eq_dec y 0) as [->|Hne].
  - reflexivity.
  - rewrite Z.sgn_pos, Z.abs_eq by lia. lia.
Qed.

Lemma roundDouble_neg (y : Z) : y < 0 -> roundDouble y = - roundMagnitude (- y).
Proof.
  intros H. unfold roundDouble. rewrite Z.sgn_neg, Z.abs_neq by lia. lia.
Qed.

Lemma roundDouble_idem (y : Z) : roundDouble (roundDouble y) = roundDouble y.
Proof.
  destruct (Z_lt_le_dec y 0) as [Hn|Hp].
  - rewrite (roundDouble_neg y Hn).
    pose proof (roundMagnitude_nonneg (- y) ltac:(lia)) as H0.
    destruct (Z.eq_dec (roundMagnitude (- y)) 0) as [->|Hne]; [reflexivity|].
    rewrite roundDouble_neg by lia.
    now rewrite Z.opp_involutive, roundMagnitude_idem.
  - rewrite (roundDouble_nonneg y Hp).
    rewrite roundDouble_nonneg by now apply roundMagnitude_nonneg.
    apply roundMagnitude_idem.
Qed.

Lemma isDouble_spec (x : Z) : isDouble x = true <-> roundDouble x = x.
Proof. unfold isDouble. apply Z.eqb_eq. Qed.

Lemma isDouble_safe (x : Z) : - TWO53 <= x <= TWO53 -> isDouble x = true.
Proof.
  intros H. apply isDouble_spec.
  destruct (Z_lt_le_dec x 0) as [Hn|Hp].
  - rewrite roundDouble_neg by lia.
    destruct (Z.eq_dec (- x) TWO53) as [E|E].
    + rewrite E, roundMagnitude_TWO53. lia.
    + rewrite roundMagnitude_small by lia. lia.
  - rewrite roundDouble_nonneg by lia.
    destruct (Z.eq_dec x TWO53) as [->|E]; [apply roundMagnitude_TWO53|].
    apply roundMagnitude_small. lia.
Qed.

Lemma plusOne_exact (x : Z) : - TWO53 <= x < TWO53 -> plusOne x = x + 1.
Proof.
  intros H. unfold plusOne. apply isDouble_spec, isDouble_safe.
  unfold TWO53 in *. lia.
Qed.

Lemma plusOne_TWO53 : plusOne TWO53 = TWO53.
Proof. reflexivity. Qed.

Lemma plusOne_double (x : Z) : isDouble (plusOne x) = true.
Proof. apply isDouble_spec. unfold plusOne. apply roundDouble_idem. Qed.

Lemma plusOne_nonneg (x : Z) : 0 <= x -> 0 <= plusOne x.
Proof.
  intros H. unfold plusOne. rewrite roundDouble_nonneg by lia.
  apply roundMagnitude_nonneg. lia.
Qed.

Lemma plusOne_ge (x : Z) : isDouble x = true -> x <= plusOne x.
Proof.
  intros Hd. apply isDouble_spec in Hd. unfold plusOne.
  destruct (Z_lt_le_dec x 0) as [Hn|Hp].
  - rewrite roundDouble_neg in Hd by lia.
    assert (Hm : roundMagnitude (- x) = - x) by lia.
    destruct (Z.eq_dec (x + 1) 0) as [E|E].
    + rewrite E. cbn. lia.
    + rewrite roundDouble_neg by lia.
      replace (- (x + 1)) with (- x - 1) by lia.
      pose proof (roundMagnitude_down (- x) ltac:(lia) Hm). lia.
  - rewrite roundDouble_nonneg in Hd by lia.
    rewrite roundDouble_nonneg by lia.
    now apply roundMagnitude_up.
Qed.

Lemma iter_plusOne_exact (n : nat) (x : Z) :
  - TWO53 <= x -> x + Z.of_nat n <= TWO53 ->
  Nat.iter n plusOne x = x + Z.of_nat n.
Proof.
  induction n as [|n IH]; intros Hlo Hhi.
  - simpl. lia.
  - rewrite Nat.iter_succ, IH by lia. rewrite plusOne_exact by lia. lia.
Qed.

End Numbers.

(** ** The classifier *)

Lemma includes_In (w : string) (l : list string) :
  includes w l = true <-> In w l.
Proof.
  unfold includes; rewrite existsb_exists; split.
  - intros [x [Hx He]]. apply String.eqb_eq in He. now subst.
  - intros H. exists w. split; [assumption | apply String.eqb_refl].
Qed.

Lemma levelMatches_intersects (toks : list string) (e : Priority * list string) :
  levelMatches toks e = true <-> intersects toks (snd e).
Proof.
  unfold levelMatches, intersects; rewrite existsb_exists; split.
  - intros [k [Hk Hi]]. apply includes_In in Hi. now exists k.
  - intros [k [Ht Hk]]. exists k. split; [assumption | now apply includes_In].
Qed.

Lemma levelMatches_false (toks : list string) (e : Priority * list string) :
  levelMatches toks e = false <-> ~ intersects toks (snd e).
Proof.
  rewrite <- levelMatches_intersects. now destruct (levelMatches toks e).
Qed.

(** The scan of the table, read as the specification words it. *)
Lemma determinePriority_spec (txt : string) :
  (intersects (tokenize txt) (keywordsOf HIGH) ->
   determinePriority txt = HIGH) /\
  (~ intersects (tokenize txt) (keywordsOf HIGH) ->
   intersects (tokenize txt) (keywordsOf MEDIUM) ->
   determinePriority txt = MEDIUM) /\
  (~ intersects (tokenize txt) (keywordsOf HIGH) ->
   ~ intersects (tokenize txt) (keywordsOf MEDIUM) ->
   determinePriority txt = LOW).
Proof.
  unfold determinePriority, PRIORITY_KEYWORDS.
  change (keywordsOf HIGH) with (snd (nth 0 PRIORITY_KEYWORDS (LOW, []))).
  change (keywordsOf MEDIUM) with (snd (nth 1 PRIORITY_KEYWORDS (LOW, []))).
  unfold PRIORITY_KEYWORDS; cbn [nth find].
  repeat split.
  - intros H. apply levelMatches_intersects in H. now rewrite H.
  - intros Hh Hm. apply levelMatches_false in Hh.
    apply levelMatches_intersects in Hm. now rewrite Hh, Hm.
  - intros Hh Hm. apply levelMatches_false in Hh, Hm.
    rewrite Hh, Hm. reflexivity.
Qed.

Lemma intersects_dec (toks kws : list string) :
  intersects toks kws \/ ~ intersects toks kws.
Proof.
  destruct (levelMatches toks (LOW, kws)) eqn:E.
  - left. now apply (levelMatches_intersects toks (LOW, kws)).
  - right. now apply (levelMatches_false toks (LOW, kws)).
Qed.

Lemma intersects_sameSet (t1 t2 kws : list string) :
  sameSet t1 t2 -> intersects t1 kws -> intersects t2 kws.
Proof.
  intros Hs [w [Hw Hk]]. exists w. split; [now apply Hs | assumption].
Qed.

Lemma determinePriority_sameSet (t1 t2 : string) :
  sameSet (tokenize t1) (tokenize t2) ->
  determinePriority t1 = determinePriority t2.
Proof.
  intros Hs.
  assert (Hs' : sameSet (tokenize t2) (tokenize t1))
    by (intros x; symmetry; apply Hs).
  destruct (determinePriority_spec t1) as [H1 [M1 L1]].
  destruct (determinePriority_spec t2) as [H2 [M2 L2]].
  destruct (intersects_dec (tokenize t1) (keywordsOf HIGH)) as [Hh|Hh].
  - rewrite (H1 Hh). symmetry. apply H2. eapply intersects_sameSet; eauto.
  - assert (Hh2 : ~ intersects (tokenize t2) (keywordsOf HIGH))
      by (intros C; apply Hh; eapply intersects_sameSet; eauto).
    destruct (intersects_dec (tokenize t1) (keywordsOf MEDIUM)) as [Hm|Hm].
    + rewrite (M1 Hh Hm). symmetry. apply M2; [assumption|].
      eapply intersects_sameSet; eauto.
    + rewrite (L1 Hh Hm). symmetry. apply L2; [assumption|].
      intros C; apply Hm; eapply intersects_sameSet; eauto.
Qed.

Lemma tokenize_case (t1 t2 : string) :
  toLowerCase t1 = toLowerCase t2 -> tokenize t1 = tokenize t2.
Proof. unfold tokenize. now intros ->. Qed.

Lemma determinePriority_toUpperCase (txt : string) :
  determinePriority (toUpperCase txt) = determinePriority txt.
Proof.
  unfold determinePriority.
  now rewrite (tokenize_case _ _ (toLowerCase_toUpperCase txt)).
Qed.

Lemma determineTags_toUpperCase (txt : string) :
  determineTags (toUpperCase txt) = determineTags txt.
Proof.
  unfold determineTags.
  now rewrite (tokenize_case _ _ (toLowerCase_toUpperCase txt)).
Qed.

Lemma addTask_nonempty (uuid nowIso : string) (st : AppState) :
  trim (inputValue st) <> "" ->
  addTask uuid nowIso st =
  mkApp (mkTask uuid (capitalize (trim (inputValue st))) false nowIso
           (determinePriority (trim (inputValue st)))
           (determineTags (trim (inputValue st))) 0 false :: tasks st)
        "" None.
Proof.
  intros H. apply isEmpty_false in H. unfold addTask. now rewrite H.
Qed.

(** C3. For every input whose trimmed text [T] is not empty, [addTask] puts
    one new record at the front of the collection, and its priority is High
    when a token of [T] is a High keyword, else Medium when a token is a
    Medium keyword, else Low. The result is the same for every text that
    differs from [T] in letter case only, and for every text with the same
    set of tokens, however often each occurs. *)
Theorem create_priority (uuid nowIso : string) (st : AppState) :
  trim (inputValue st) <> "" ->
  exists t,
    tasks (addTask uuid nowIso st) = t :: tasks st /\
    (intersects (tokenize (trim (inputValue st))) (keywordsOf HIGH) ->
     priority t = HIGH) /\
    (~ intersects (tokenize (trim (inputValue st))) (keywordsOf HIGH) ->
     intersects (tokenize (trim (inputValue st))) (keywordsOf MEDIUM) ->
     priority t = MEDIUM) /\
    (~ intersects (tokenize (trim (inputValue st))) (keywordsOf HIGH) ->
     ~ intersects (tokenize (trim (inputValue st))) (keywordsOf MEDIUM) ->
     priority t = LOW) /\
    (forall T', toLowerCase T' = toLowerCase (trim (inputValue st)) ->
                determinePriority T' = priority t) /\
    (forall T', sameSet (tokenize T') (tokenize (trim (inputValue st))) ->
                determinePriority T' = priority t).
Proof.
  intros H. rewrite (addTask_nonempty uuid nowIso st H).
  eexists; split; [reflexivity|]. cbn [priority].
  destruct (determinePriority_spec (trim (inputValue st))) as [Hh [Hm Hl]].
  repeat split; try assumption.
  - intros T' HT. apply determinePriority_sameSet.
    rewrite (tokenize_case _ _ HT). intros x; reflexivity.
  - intros T' HT. now apply determinePriority_sameSet.
Qed.

Lemma create_priority_witness :
  exists t,
    tasks (addTask "id-1" "2026-11-02T09:00:00.000Z"
             (mkApp [] "  URGENT exam tomorrow " None)) = [t] /\
    priority t = HIGH.
Proof.
  destruct (create_priority "id-1" "2026-11-02T09:00:00.000Z"
              (mkApp [] "  URGENT exam tomorrow " None))
    as [t [Ht [Hh _]]].
  - vm_compute. discriminate.
  - exists t. split; [exact Ht|].
    apply Hh. exists "urgent". split; vm_compute; tauto.
Defined.

(** The end-to-end inputs of the specification. *)
Example classify_urgent_exam :
  determinePriority "URGENT exam tomorrow" = HIGH /\
  determineTags "URGENT exam tomorrow" = ["Academic"].
Proof. split; reflexivity. Qed.

Example classify_urgent_call :
  tokenize "urgent: call client" = ["urgent"; "call"; "client"] /\
  determinePriority "urgent: call client" = HIGH /\
  determineTags "urgent: call client" = [].
Proof. repeat split; reflexivity. Qed.

Example classify_buy_groceries :
  tokenize "Buy groceries" = ["buy"; "groceries"] /\
  In "buy" (keywordsOf MEDIUM) /\
  lookup "buy" TAG_MAPPING = Some "Shopping" /\
  lookup "groceries" TAG_MAPPING = None.
Proof. repeat split; try reflexivity. vm_compute. tauto. Qed.

(** C2 (as stated, refuted). The record created from "Buy groceries" has
    neither the priority nor the tag set of the claim. Its priority is not
    Low: "buy" is a Medium keyword of [PRIORITY_KEYWORDS]. Its tag set is
    not {Shopping, Errands}: the only key of [TAG_MAPPING] that occurs in
    the lower-cased text, as a token or anywhere inside it, is "buy"; the
    key "grocery" of Errands does not occur in "buy groceries". *)
Lemma buy_groceries_not_low_errands :
  step (Create "Buy groceries" "id-1" "2026-11-02T09:00:00.000Z") []
  = [mkTask "id-1" "Buy groceries" false "2026-11-02T09:00:00.000Z"
            MEDIUM ["Shopping"] 0 false] /\
  ~ (exists t,
       step (Create "Buy groceries" "id-1" "2026-11-02T09:00:00.000Z") [] = [t] /\
       priority t = LOW) /\
  ~ (exists t,
       step (Create "Buy groceries" "id-1" "2026-11-02T09:00:00.000Z") [] = [t] /\
       sameSet (tags t) ["Shopping"; "Errands"]) /\
  filter (fun e => occursIn (fst e) (toLowerCase "Buy groceries")) TAG_MAPPING
  = [("buy", "Shopping")].
Proof.
  split; [reflexivity|]. split; [|split].
  - intros [t [Ht Hp]].
    vm_compute in Ht. injection Ht as <-. discriminate Hp.
  - intros [t [Ht Hs]].
    vm_compute in Ht. injection Ht as <-.
    assert (He : In "Errands" ["Shopping"])
      by (apply Hs; right; left; reflexivity).
    destruct He as [He|[]]. discriminate He.
  - reflexivity.
Qed.

(** C2 (amended). Creating a task from the input text "Buy groceries" puts
    at the front of the collection a record with priority Medium and the
    tag set exactly {Shopping}. *)
Theorem buy_groceries_medium_shopping (uuid nowIso : string) (ts : list Task) :
  step (Create "Buy groceries" uuid nowIso) ts =
    mkTask uuid "Buy groceries" false nowIso MEDIUM ["Shopping"] 0 false :: ts.
Proof. reflexivity. Qed.

(** ** Validation of the input of [addTask] *)

(** C4. When the input text is empty after trimming, [addTask] reports the
    validation message and leaves the collection, and the input, as they
    were: no record is added and none is modified. *)
Theorem addTask_rejects_blank (uuid nowIso : string) (st : AppState) :
  trim (inputValue st) = "" ->
  error (addTask uuid nowIso st) = Some VALIDATION_MESSAGE /\
  tasks (addTask uuid nowIso st) = tasks st /\
  inputValue (addTask uuid nowIso st) = inputValue st /\
  step (Create (inputValue st) uuid nowIso) (tasks st) = tasks st.
Proof.
  intros H. unfold step, addTask; cbn [inputValue tasks].
  rewrite H. cbn. repeat split; reflexivity.
Qed.

Lemma addTask_rejects_blank_witness :
  tasks (addTask "id-1" "2026-11-02T09:00:00.000Z" (mkApp [walkDone] "   " None))
    = [walkDone] /\
  error (addTask "id-1" "2026-11-02T09:00:00.000Z" (mkApp [walkDone] "" None))
    = Some VALIDATION_MESSAGE.
Proof.
  split.
  - apply (addTask_rejects_blank "id-1" "2026-11-02T09:00:00.000Z"
             (mkApp [walkDone] "   " None)).
    reflexivity.
  - apply (addTask_rejects_blank "id-1" "2026-11-02T09:00:00.000Z"
             (mkApp [walkDone] "" None)).
    reflexivity.
Defined.

(** ** The lifecycle operations *)

Lemma Forall_map_self {A : Type} (P : A -> Prop) (f : A -> A) (l : list A) :
  (forall x, In x l -> P x -> P (f x)) -> Forall P l -> Forall P (map f l).
Proof.
  induction l as [|a l IH]; intros Hf H; simpl; [constructor|].
  inversion H as [|? ? Ha Hl]; subst. constructor.
  - apply Hf; [now left | assumption].
  - apply IH; [|assumption]. intros x Hx. apply Hf. now right.
Qed.

Lemma Forall_filter_keep {A : Type} (P : A -> Prop) (f : A -> bool) (l : list A) :
  Forall P l -> Forall P (filter f l).
Proof.
  induction 1 as [|a l Ha Hl IH]; simpl; [constructor|].
  destruct (f a); [constructor|]; assumption.
Qed.

Lemma Forall2_map_self {A : Type} (R : A -> A -> Prop) (f : A -> A) (l : list A) :
  (forall x, R x (f x)) -> Forall2 R l (map f l).
Proof.
  intros Hf; induction l as [|a l IH]; simpl; constructor; auto.
Qed.

Lemma consistent_created (t : Task) :
  isTimerRunning t = false -> consistent t.
Proof. intros H [C _]. congruence. Qed.

Lemma consistent_pending (t : Task) :
  completed t = false -> consistent t.
Proof. intros H [_ C]. congruence. Qed.

(** One step keeps the two flags apart, provided it does not start the timer
    of a completed task. *)
Lemma step_consistent (o : Op) (ts : list Task) :
  timerAllowed o ts = true ->
  Forall consistent ts -> Forall consistent (step o ts).
Proof.
  intros Ha H. destruct o as [raw uuid nowIso|i|i|i newText|i| |]; simpl.
  - unfold addTask; cbn [inputValue tasks].
    destruct (isEmpty (trim raw)); cbn [tasks]; [assumption|].
    constructor; [|assumption]. now apply consistent_created.
  - unfold toggleTask. apply Forall_map_self; [|assumption].
    intros t _ Ht. destruct (String.eqb (id t) i); [|assumption].
    destruct (completed t) eqn:Ec.
    + now apply consistent_pending.
    + now apply consistent_created.
  - unfold toggleTimer. apply Forall_map_self; [|assumption].
    intros t Hin Ht. destruct (String.eqb (id t) i) eqn:Ei; [|assumption].
    simpl in Ha. rewrite forallb_forall in Ha. specialize (Ha t Hin).
    rewrite Ei in Ha. simpl in Ha. apply negb_true_iff in Ha.
    now apply consistent_pending.
  - unfold editTask. destruct (isEmpty (trim newText)); [assumption|].
    apply Forall_map_self; [|assumption].
    intros t _ Ht. destruct (String.eqb (id t) i); assumption.
  - now apply Forall_filter_keep.
  - now apply Forall_filter_keep.
  - unfold tick. apply Forall_map_self; [|assumption].
    intros t _ Ht. destruct (isTimerRunning t) eqn:E; [|assumption].
    intros [_ C]. apply Ht. split; [assumption | exact C].
Qed.

(** C1 (as stated, refuted). [toggleTimer] flips the flag of a completed
    task too: from a collection where no task has both flags set, one
    [ToggleTimer] event reaches a task that is completed and running. *)
Lemma timer_started_on_completed_task :
  Forall consistent [walkDone] /\
  run [ToggleTimer "id-0"] [walkDone] =
    [mkTask "id-0" "Walk" true "2026-11-01T08:00:00.000Z" LOW [] 7 true] /\
  ~ Forall consistent (run [ToggleTimer "id-0"] [walkDone]).
Proof.
  split; [|split].
  - constructor; [|constructor]. intros [C _]. discriminate C.
  - reflexivity.
  - intros C. inversion C as [|? ? Hbad _]; subst.
    apply Hbad. split; reflexivity.
Qed.

(** C1 (amended). Starting from a collection where no task is both running
    and completed, after any sequence of create, toggleComplete, toggleTimer,
    edit, delete, clearCompleted and timer ticks in which toggleTimer is
    never applied to a completed task, no task is both running and
    completed. *)
Theorem flags_exclusive (ops : list Op) (ts : list Task) :
  allowed ops ts = true ->
  Forall consistent ts ->
  Forall consistent (run ops ts).
Proof.
  revert ts. induction ops as [|o r IH]; intros ts Ha H; simpl; [assumption|].
  simpl in Ha. apply andb_true_iff in Ha as [Ho Hr].
  apply IH; [assumption|]. now apply step_consistent.
Qed.

Lemma flags_exclusive_witness :
  Forall consistent
    (run [Create "email the report" "id-1" "2026-11-02T09:00:00.000Z";
          ToggleTimer "id-1"; Tick; Tick; ToggleComplete "id-1";
          ToggleComplete "id-0"; ToggleTimer "id-0"; Tick; ClearCompleted]
         [walkDone]).
Proof.
  apply flags_exclusive.
  - vm_compute. reflexivity.
  - constructor; [|constructor]. intros [C _]. discriminate C.
Defined.

(** ** Accumulated time *)

Lemma sameIdentity_refl (t : Task) : sameIdentity t t.
Proof. repeat split. Qed.

Lemma sameIdentity_trans (t1 t2 t3 : Task) :
  sameIdentity t1 t2 -> sameIdentity t2 t3 -> sameIdentity t1 t3.
Proof.
  unfold sameIdentity. intros [A [B [C D]]] [A' [B' [C' D']]].
  repeat split; congruence.
Qed.

(** Where a task of the next collection comes from: it is the record just
    created, or it continues a task of the previous collection, whose time
    it keeps, unless the step is a tick and the timer of that task was
    running: then its time is the sum of that time and 1. *)
Lemma step_origin (o : Op) (ts : list Task) (t' : Task) :
  In t' (step o ts) ->
  createdBy o t' \/
  exists t, In t ts /\ sameIdentity t t' /\
            timeSpent t' =
            if isTick o && isTimerRunning t then plusOne (timeSpent t)
            else timeSpent t.
Proof.
  assert (Hkeep : forall t : Task, In t ts -> isTick o = false ->
            exists t0, In t0 ts /\ sameIdentity t0 t /\
                       timeSpent t =
                       if isTick o && isTimerRunning t0
                       then plusOne (timeSpent t0) else timeSpent t0).
  { intros t Hin Ho. exists t. rewrite Ho. simpl.
    repeat split; assumption. }
  destruct o as [raw uuid nowIso|i|i|i newText|i| |]; simpl.
  - unfold addTask; cbn [inputValue tasks].
    destruct (isEmpty (trim raw)); cbn [tasks].
    + intros Hin. right. now apply Hkeep.
    + intros [<-|Hin].
      * left. exists raw, uuid, nowIso. repeat split.
      * right. now apply Hkeep.
  - unfold toggleTask. intros Hin. apply in_map_iff in Hin as [t [<- Hin]].
    right. exists t. split; [assumption|].
    destruct (String.eqb (id t) i); simpl; repeat split.
  - unfold toggleTimer. intros Hin. apply in_map_iff in Hin as [t [<- Hin]].
    right. exists t. split; [assumption|].
    destruct (String.eqb (id t) i); simpl; repeat split.
  - unfold editTask. destruct (isEmpty (trim newText)).
    + intros Hin. right. now apply Hkeep.
    + intros Hin. apply in_map_iff in Hin as [t [<- Hin]].
      right. exists t. split; [assumption|].
      destruct (String.eqb (id t) i); simpl; repeat split.
  - unfold deleteTask. intros Hin. apply filter_In in Hin as [Hin _].
    right. now apply Hkeep.
  - unfold clearCompleted. intros Hin. apply filter_In in Hin as [Hin _].
    right. now apply Hkeep.
  - unfold tick. intros Hin. apply in_map_iff in Hin as [t [<- Hin]].
    right. exists t. split; [assumption|].
    destruct (isTimerRunning t) eqn:E; simpl; repeat split.
Qed.

(** Every step keeps the times among the doubles. *)
Lemma step_doubles (o : Op) (ts : list Task) :
  Forall (fun t => isDouble (timeSpent t) = true) ts ->
  Forall (fun t => isDouble (timeSpent t) = true) (step o ts).
Proof.
  intros H. apply Forall_forall. intros t' Hin.
  rewrite Forall_forall in H.
  destruct (step_origin o ts t' Hin)
    as [[raw [uuid [nowIso [_ [_ [_ [_ [Hz _]]]]]]]] | [t [Ht [_ He]]]].
  - rewrite Hz. reflexivity.
  - rewrite He. destruct (isTick o && isTimerRunning t).
    + apply plusOne_double.
    + now apply H.
Qed.

Lemma run_origin (ops : list Op) (ts : list Task) (t' : Task) :
  Forall (fun t => isDouble (timeSpent t) = true) ts ->
  In t' (run ops ts) ->
  (exists t, In t ts /\ sameIdentity t t' /\ (timeSpent t <= timeSpent t')%Z) \/
  (createdDuring ops t' /\ (0 <= timeSpent t')%Z).
Proof.
  revert ts. induction ops as [|o r IH]; intros ts Hd Hin; simpl in Hin.
  - left. exists t'. repeat split; [assumption | lia].
  - destruct (IH _ (step_doubles o ts Hd) Hin)
      as [[t1 [H1 [Hs Hle]]] | [[raw [uuid [nowIso [Hc Hid]]]] H0]].
    + destruct (step_origin o ts t1 H1)
        as [[raw [uuid [nowIso [-> [Hid [Hca [_ [Hz _]]]]]]]] | [t [Ht [Hs' He]]]].
      * right. split; [|lia].
        exists raw, uuid, nowIso. destruct Hs as [A [B _]].
        split; [now left|]. split; congruence.
      * left. exists t. split; [assumption|].
        split; [eapply sameIdentity_trans; eassumption|].
        rewrite Forall_forall in Hd. specialize (Hd t Ht).
        pose proof (plusOne_ge (timeSpent t) Hd) as Hge.
        destruct (isTick o && isTimerRunning t); lia.
    + right. split; [|assumption].
      exists raw, uuid, nowIso. split; [now right | assumption].
Qed.

(** C7 (as stated, refuted). A tick does not add 1 to every running task:
    on a task whose time stands at 2^53 the sum [timeSpent + 1] rounds back
    to 2^53, and the tick leaves the task as it is. *)
Lemma tick_at_two_pow_53 :
  isTimerRunning marathon = true /\
  step Tick [marathon] = [marathon] /\
  ~ (forall t', In t' (step Tick [marathon]) ->
       exists t, In t [marathon] /\ sameIdentity t t' /\
         timeSpent t' = (timeSpent t
           + (if isTick Tick && isTimerRunning t then 1 else 0))%Z).
Proof.
  split; [reflexivity|]. split; [reflexivity|].
  intros C. destruct (C marathon (or_introl eq_refl)) as [t [[<-|[]] [_ H]]].
  vm_compute in H. discriminate H.
Qed.

(** C7 (amended). Across one step every task of the new collection either
    was just created (with no time on it) or continues a task of the
    previous collection: with the same time when the step is not a tick or
    that task's timer was not running; with the time plus exactly 1 when
    the step is a tick, the timer was running and the time was, in absolute
    value, below 2^53; and never with less time than before. Hence, from
    any collection whose times are integer-valued numbers, across any
    sequence of operations and ticks a task's time is never below what it
    was at the start, and never below zero for a task created on the
    way. *)
Theorem timeSpent_monotone :
  (forall (o : Op) (ts : list Task) (t' : Task),
     In t' (step o ts) ->
     createdBy o t' \/
     exists t, In t ts /\ sameIdentity t t' /\
       (isTick o && isTimerRunning t = false -> timeSpent t' = timeSpent t) /\
       (isTick o && isTimerRunning t = true ->
        (- TWO53 <= timeSpent t < TWO53)%Z ->
        timeSpent t' = (timeSpent t + 1)%Z) /\
       (isDouble (timeSpent t) = true -> (timeSpent t <= timeSpent t')%Z)) /\
  (forall (ops : list Op) (ts : list Task) (t' : Task),
     Forall (fun t => isDouble (timeSpent t) = true) ts ->
     In t' (run ops ts) ->
     (exists t, In t ts /\ sameIdentity t t' /\
                (timeSpent t <= timeSpent t')%Z) \/
     (createdDuring ops t' /\ (0 <= timeSpent t')%Z)).
Proof.
  split.
  - intros o ts t' Hin.
    destruct (step_origin o ts t' Hin) as [Hc | [t [Ht [Hs He]]]];
      [now left|].
    right. exists t. split; [assumption|]. split; [assumption|].
    split; [|split].
    + intros Hb. now rewrite Hb in He.
    + intros Hb Hr. rewrite Hb in He. rewrite He. now apply plusOne_exact.
    + intros Hd. rewrite He. destruct (isTick o && isTimerRunning t); [|lia].
      now apply plusOne_ge.
  - exact run_origin.
Qed.

Lemma timeSpent_monotone_witness :
  (exists t, In t [walkDone] /\
     sameIdentity t (mkTask "id-0" "Walk" false "2026-11-01T08:00:00.000Z" LOW [] 9 true) /\
     (timeSpent t <= 9)%Z) \/
  (createdDuring [ToggleComplete "id-0"; ToggleTimer "id-0"; Tick; Tick]
     (mkTask "id-0" "Walk" false "2026-11-01T08:00:00.000Z" LOW [] 9 true) /\
   (0 <= 9)%Z).
Proof.
  apply (proj2 timeSpent_monotone
           [ToggleComplete "id-0"; ToggleTimer "id-0"; Tick; Tick] [walkDone]
           (mkTask "id-0" "Walk" false "2026-11-01T08:00:00.000Z" LOW [] 9 true)).
  - constructor; [reflexivity | constructor].
  - vm_compute. left. reflexivity.
Defined.

(** With no running task the interval is not armed, and a tick would change
    nothing. *)
Lemma tick_idle (currentUser : option User) (ts : list Task) :
  currentUser <> None -> timerArmed currentUser ts = false -> tick ts = ts.
Proof.
  intros Hu. unfold timerArmed. destruct currentUser as [u|]; [|congruence].
  intros H. apply negb_false_iff, Nat.eqb_eq in H.
  induction ts as [|t r IH]; simpl in *; [reflexivity|].
  destruct (isTimerRunning t); simpl in H; [discriminate|].
  f_equal. now apply IH.
Qed.

(** ** Toggling completion twice *)

(** C8. [toggleTask i] applied twice gives back every task as it was, except
    that a task with identifier [i] ends with its timer stopped: its
    completion flag is the original one, and its timer flag is the original
    one when that was false and false when that was true. *)
Theorem toggleTask_twice (i : string) (ts : list Task) :
  toggleTask i (toggleTask i ts) =
    map (fun t =>
           if String.eqb (id t) i then
             mkTask (id t) (text t) (completed t) (createdAt t) (priority t)
                    (tags t) (timeSpent t)
                    (if isTimerRunning t then false else isTimerRunning t)
           else t) ts
  /\
  Forall2 (fun t t2 =>
             sameIdentity t t2 /\ text t2 = text t /\
             timeSpent t2 = timeSpent t /\
             completed t2 = completed t /\
             (String.eqb (id t) i = true ->
              (isTimerRunning t = false -> isTimerRunning t2 = isTimerRunning t) /\
              (isTimerRunning t = true -> isTimerRunning t2 = false)) /\
             (String.eqb (id t) i = false -> t2 = t))
          ts (toggleTask i (toggleTask i ts)).
Proof.
  assert (E : toggleTask i (toggleTask i ts) =
    map (fun t =>
           if String.eqb (id t) i then
             mkTask (id t) (text t) (completed t) (createdAt t) (priority t)
                    (tags t) (timeSpent t)
                    (if isTimerRunning t then false else isTimerRunning t)
           else t) ts).
  { unfold toggleTask. rewrite map_map. apply map_ext. intros t.
    destruct (String.eqb (id t) i) eqn:Ei; cbn [id]; rewrite Ei; [|reflexivity].
    cbn. destruct t as [a b c d e f g h]; cbn.
    destruct c, h; reflexivity. }
  split; [exact E|]. rewrite E.
  apply Forall2_map_self. intros t.
  destruct (String.eqb (id t) i) eqn:Ei.
  - cbn. split; [repeat split|]. do 3 (split; [reflexivity|]).
    split; [|discriminate]. intros _.
    split; intros Hr; now rewrite Hr.
  - split; [apply sameIdentity_refl|]. do 3 (split; [reflexivity|]).
    split; [discriminate | reflexivity].
Qed.

Lemma toggleTask_twice_witness :
  toggleTask "id-0" (toggleTask "id-0" [walkDone]) = [walkDone].
Proof.
  rewrite (proj1 (toggleTask_twice "id-0" [walkDone])). reflexivity.
Defined.

(** ** Editing *)

(** C9. [editTask i newText] leaves the collection as it is when [newText]
    is empty after trimming and when no task has identifier [i]. Otherwise
    it keeps the length and the order of the collection; every task keeps
    its identifier, creation time, completion flag, priority, tags, time
    and timer flag; the text of a task with identifier [i] becomes the
    capitalized trimmed [newText], and the text of the others stays. *)
Theorem editTask_frame (i newText : string) (ts : list Task) :
  (trim newText = "" -> editTask i newText ts = ts) /\
  ((forall t, In t ts -> id t <> i) -> editTask i newText ts = ts) /\
  (trim newText <> "" ->
   Forall2 (fun t t' =>
              sameIdentity t t' /\
              completed t' = completed t /\
              timeSpent t' = timeSpent t /\
              isTimerRunning t' = isTimerRunning t /\
              text t' = if String.eqb (id t) i
                        then capitalize (trim newText) else text t)
           ts (editTask i newText ts)).
Proof.
  unfold editTask. split; [|split].
  - intros ->. reflexivity.
  - intros Hno. destruct (isEmpty (trim newText)); [reflexivity|].
    induction ts as [|t r IH]; simpl; [reflexivity|].
    destruct (String.eqb (id t) i) eqn:Ei.
    + apply String.eqb_eq in Ei. exfalso. apply (Hno t); [now left | exact Ei].
    + f_equal. apply IH. intros t0 H0. apply Hno. now right.
  - intros Hne. apply isEmpty_false in Hne. rewrite Hne.
    apply Forall2_map_self. intros t.
    destruct (String.eqb (id t) i); cbn; repeat split.
Qed.

Lemma editTask_frame_witness :
  editTask "id-0" "  " [walkDone] = [walkDone] /\
  editTask "id-9" "urgent walk" [walkDone] = [walkDone] /\
  Forall2 (fun t t' =>
             sameIdentity t t' /\
             completed t' = completed t /\
             timeSpent t' = timeSpent t /\
             isTimerRunning t' = isTimerRunning t /\
             text t' = if String.eqb (id t) "id-0"
                       then capitalize (trim " urgent walk ") else text t)
          [walkDone] (editTask "id-0" " urgent walk " [walkDone]).
Proof.
  split; [|split].
  - apply (proj1 (editTask_frame "id-0" "  " [walkDone])). reflexivity.
  - apply (proj1 (proj2 (editTask_frame "id-9" "urgent walk" [walkDone]))).
    intros t [<-|[]]. vm_compute. discriminate.
  - apply (proj2 (proj2 (editTask_frame "id-0" " urgent walk " [walkDone]))).
    vm_compute. discriminate.
Defined.

(** ** Statistics, retention and load *)

Lemma length_filter_count (p : Task -> bool) (ts : list Task) :
  List.length (filter p ts) = count p ts.
Proof.
  induction ts as [|t r IH]; simpl; [reflexivity|].
  destruct (p t); simpl; now rewrite IH.
Qed.

Lemma count_partition (p : Task -> bool) (ts : list Task) :
  List.length ts = (count (fun t => negb (p t)) ts + count p ts)%nat.
Proof.
  induction ts as [|t r IH]; simpl; [reflexivity|].
  destruct (p t); simpl; lia.
Qed.

Lemma count_le (p q : Task -> bool) (ts : list Task) :
  (forall t, p t = true -> q t = true) -> (count p ts <= count q ts)%nat.
Proof.
  intros Hpq. induction ts as [|t r IH]; simpl; [lia|].
  destruct (p t) eqn:Ep.
  - rewrite (Hpq t Ep). lia.
  - destruct (q t); lia.
Qed.

Lemma count_lt (p q : Task -> bool) (ts : list Task) :
  (forall t, p t = true -> q t = true) ->
  (exists t, In t ts /\ q t = true /\ p t = false) ->
  (count p ts < count q ts)%nat.
Proof.
  intros Hpq [t [Hin [Hq Hp]]].
  induction ts as [|a r IH]; simpl; [destruct Hin|].
  pose proof (count_le p q r Hpq) as Hle.
  destruct Hin as [->|Hin].
  - rewrite Hq, Hp. lia.
  - specialize (IH Hin). destruct (p a) eqn:Ep.
    + rewrite (Hpq a Ep). lia.
    + destruct (q a); lia.
Qed.

Lemma getField_setField_same (k : string) (v : JsValue) (t : JsObject) :
  getField k (setField k v t) = v.
Proof.
  unfold getField. induction t as [|[k' v'] r IH]; simpl.
  - now rewrite String.eqb_refl.
  - destruct (String.eqb k' k) eqn:E; simpl; rewrite E; [reflexivity | exact IH].
Qed.

Lemma getField_setField_other (k k' : string) (v : JsValue) (t : JsObject) :
  k <> k' -> getField k' (setField k v t) = getField k' t.
Proof.
  intros Hne. unfold getField. induction t as [|[k1 v1] r IH]; simpl.
  - apply String.eqb_neq in Hne. now rewrite Hne.
  - destruct (String.eqb k1 k) eqn:E; simpl.
    + apply String.eqb_eq in E. subst k1.
      apply String.eqb_neq in Hne. now rewrite Hne.
    + destruct (String.eqb k1 k'); [reflexivity | exact IH].
Qed.

Section ClockProperties.

Variable timeValue : JsValue -> option Z.
Variable localDay : Z -> Z.
Variable now : Z.

(** C5. In the daily snapshot, pending counts every task that is not
    completed, whatever its creation date, completed counts the completed
    tasks created on the current calendar day, and total is their sum; the
    total of the monthly snapshot is the size of the collection; the two
    totals differ as soon as a completed task was created on a day before
    the current one. *)
Theorem stats_totals (ts : list Task) :
  pending (dailyStats timeValue localDay now ts)
    = count (fun t => negb (completed t)) ts /\
  completed_count (dailyStats timeValue localDay now ts)
    = count (fun t => completed t
                      && isToday timeValue localDay now (createdAt t)) ts /\
  total (dailyStats timeValue localDay now ts)
    = (pending (dailyStats timeValue localDay now ts)
       + completed_count (dailyStats timeValue localDay now ts))%nat /\
  total (monthlyStats ts) = List.length ts /\
  ((exists t ms, In t ts /\ completed t = true /\
                 timeValue (JStr (createdAt t)) = Some ms /\
                 localDay ms < localDay now) ->
   total (dailyStats timeValue localDay now ts) <> total (monthlyStats ts)).
Proof.
  unfold dailyStats, monthlyStats; cbn [pending completed_count total].
  rewrite !length_filter_count.
  repeat split.
  intros [t [ms [Hin [Hc [Hms Hlt]]]]].
  rewrite (count_partition (fun t => completed t) ts).
  assert (Hstrict :
    (count (fun t => completed t
                     && isToday timeValue localDay now (createdAt t)) ts
     < count (fun t => completed t) ts)%nat).
  { apply count_lt.
    - intros t0 H0. now apply andb_true_iff in H0 as [H0 _].
    - exists t. split; [assumption|]. split; [assumption|].
      rewrite Hc. unfold isToday. rewrite Hms. simpl.
      apply Z.eqb_neq. lia. }
  lia.
Qed.

(** C6. The retention filter keeps exactly the persisted records whose
    creation instant is at most 30 days before now: a record created
    exactly 30 days ago is kept, so is one created 29 days ago, and any
    record created earlier than that, 31 days ago for one, is dropped; at
    session load the collection is made of the kept records, normalized,
    in their order. *)
Theorem retention_boundary (parsed : list JsObject) :
  (forall r, In r (retained timeValue now parsed) <->
             In r parsed /\
             exists t, timeValue (getField "createdAt" r) = Some t /\
                       now - t <= 30 * DAY_MS) /\
  (forall r t, In r parsed ->
     timeValue (getField "createdAt" r) = Some t ->
     (t = now - 30 * DAY_MS -> In r (retained timeValue now parsed)) /\
     (t = now - 29 * DAY_MS -> In r (retained timeValue now parsed)) /\
     (t = now - 31 * DAY_MS -> ~ In r (retained timeValue now parsed)) /\
     (t < now - 30 * DAY_MS -> ~ In r (retained timeValue now parsed))) /\
  (forall u storage,
     storage (STORAGE_KEY ++ "_" ++ username u) = Some parsed ->
     loadTasks timeValue now (Some u) storage
     = map clean (retained timeValue now parsed)).
Proof.
  assert (Hiff : forall r, In r (retained timeValue now parsed) <->
             In r parsed /\
             exists t, timeValue (getField "createdAt" r) = Some t /\
                       now - t <= 30 * DAY_MS).
  { intros r. unfold retained. rewrite filter_In. unfold isWithinLast30Days.
    split.
    - intros [Hin H]. split; [assumption|].
      destruct (timeValue (getField "createdAt" r)) as [t|]; [|discriminate].
      exists t. split; [reflexivity|]. apply Z.leb_le in H. lia.
    - intros [Hin [t [Ht Hle]]]. split; [assumption|].
      rewrite Ht. apply Z.leb_le. lia. }
  split; [exact Hiff|]. split.
  - intros r t Hin Ht. unfold DAY_MS in *. repeat split.
    + intros ->. apply Hiff. split; [assumption|].
      exists (now - 30 * (24 * 60 * 60 * 1000)). split; [assumption | lia].
    + intros ->. apply Hiff. split; [assumption|].
      exists (now - 29 * (24 * 60 * 60 * 1000)). split; [assumption | lia].
    + intros -> C. apply Hiff in C as [_ [t' [Ht' Hle]]].
      rewrite Ht in Ht'. injection Ht' as <-. lia.
    + intros Hlt C. apply Hiff in C as [_ [t' [Ht' Hle]]].
      rewrite Ht in Ht'. injection Ht' as <-. lia.
  - intros u storage Hs. unfold loadTasks. rewrite Hs. reflexivity.
Qed.

(** C10 (amended). Every record that enters the collection at session load
    is a retained persisted record with two fields rewritten and all the
    others as persisted: isTimerRunning becomes the boolean truth value of
    what was persisted, so it is always a strict boolean; timeSpent
    becomes 0 when it was missing or falsy and is kept as it is otherwise,
    so it is a number whenever the persisted value was a number, missing
    or falsy. *)
Theorem load_normalizes (currentUser : option User)
    (storage : string -> option (list JsObject)) (r : JsObject) :
  In r (loadTasks timeValue now currentUser storage) ->
  exists t,
    r = clean t /\
    isWithinLast30Days timeValue now (getField "createdAt" t) = true /\
    getField "isTimerRunning" r = JBool (truthy (getField "isTimerRunning" t)) /\
    isBoolean (getField "isTimerRunning" r) = true /\
    (truthy (getField "timeSpent" t) = false ->
     getField "timeSpent" r = JNum 0) /\
    (truthy (getField "timeSpent" t) = true ->
     getField "timeSpent" r = getField "timeSpent" t) /\
    (isNumber (getField "timeSpent" t) = true \/
     truthy (getField "timeSpent" t) = false ->
     isNumber (getField "timeSpent" r) = true) /\
    (forall k, k <> "timeSpent" -> k <> "isTimerRunning" ->
               getField k r = getField k t).
Proof.
  intros Hin.
  assert (Hex : exists t, r = clean t /\
            isWithinLast30Days timeValue now (getField "createdAt" t) = true).
  { unfold loadTasks in Hin. destruct currentUser as [u|]; [|destruct Hin].
    cbn in Hin. apply in_map_iff in Hin as [t [<- Hin]].
    unfold retained in Hin. apply filter_In in Hin as [_ Hw].
    now exists t. }
  destruct Hex as [t [-> Hw]]. exists t.
  assert (Hrun : getField "isTimerRunning" (clean t)
                 = JBool (truthy (getField "isTimerRunning" t))).
  { unfold clean. apply getField_setField_same. }
  assert (Htime : getField "timeSpent" (clean t)
                  = if truthy (getField "timeSpent" t)
                    then getField "timeSpent" t else JNum 0).
  { unfold clean. rewrite getField_setField_other by discriminate.
    apply getField_setField_same. }
  split; [reflexivity|]. split; [exact Hw|]. split; [exact Hrun|].
  split; [now rewrite Hrun|].
  split; [intros H; now rewrite Htime, H|].
  split; [intros H; now rewrite Htime, H|].
  split.
  - rewrite Htime. intros [H|H].
    + now destruct (truthy (getField "timeSpent" t)).
    + now rewrite H.
  - intros k H1 H2. unfold clean.
    rewrite getField_setField_other by congruence.
    now rewrite getField_setField_other by congruence.
Qed.

End ClockProperties.

(** ** The properties at the example data *)

Example parseIso_nowExample :
  parseIso "2026-11-02T09:00:00.000Z" = Some nowExample.
Proof. reflexivity. Qed.

Example loadTasks_example :
  loadTasks isoTimeValue nowExample (Some ana) storageExample =
  [ persistedRecord "id-3" "Read" false "2026-11-01T08:00:00.000Z"
      [("timeSpent", JStr "90"); ("isTimerRunning", JBool false)];
    persistedRecord "id-4" "Plan" false "2026-10-03T09:00:00.000Z"
      [("isTimerRunning", JBool true); ("timeSpent", JNum 0)];
    persistedRecord "id-6" "Cook" true "2026-10-04T09:00:00.000Z"
      [("timeSpent", JNum 0); ("isTimerRunning", JBool false)] ].
Proof. vm_compute. reflexivity. Qed.

Lemma stats_totals_witness :
  total (dailyStats isoTimeValue utcDay nowExample
           [walkDone; reportPending; gymDoneToday])
  <> total (monthlyStats [walkDone; reportPending; gymDoneToday]).
Proof.
  apply (stats_totals isoTimeValue utcDay nowExample
           [walkDone; reportPending; gymDoneToday]).
  exists walkDone, 1793520000000.
  split; [now left|]. split; [reflexivity|]. split; [reflexivity|].
  vm_compute. reflexivity.
Defined.

Lemma retention_boundary_witness :
  In thirtyDaysOld (retained isoTimeValue nowExample persistedExample) /\
  In twentyNineDaysOld (retained isoTimeValue nowExample persistedExample) /\
  ~ In thirtyOneDaysOld (retained isoTimeValue nowExample persistedExample).
Proof.
  pose proof (retention_boundary isoTimeValue nowExample persistedExample)
    as [_ [H _]].
  split; [|split].
  - destruct (H thirtyDaysOld (nowExample - 30 * DAY_MS)) as [A _];
      [vm_compute; tauto | reflexivity | apply A; reflexivity].
  - destruct (H twentyNineDaysOld (nowExample - 29 * DAY_MS)) as [_ [A _]];
      [vm_compute; tauto | reflexivity | apply A; reflexivity].
  - destruct (H thirtyOneDaysOld (nowExample - 31 * DAY_MS)) as [_ [_ [A _]]];
      [vm_compute; tauto | reflexivity | apply A; reflexivity].
Defined.

(** C10 (as stated, refuted). A persisted timeSpent that is a non-empty
    string is truthy, so the load keeps it: the loaded record does not have
    a numeric timeSpent. *)
Lemma load_keeps_string_timeSpent :
  In (clean readYesterday)
     (loadTasks isoTimeValue nowExample (Some ana) storageExample) /\
  getField "timeSpent" (clean readYesterday) = JStr "90" /\
  ~ (forall r,
       In r (loadTasks isoTimeValue nowExample (Some ana) storageExample) ->
       isNumber (getField "timeSpent" r) = true /\
       isBoolean (getField "isTimerRunning" r) = true).
Proof.
  assert (Hin : In (clean readYesterday)
     (loadTasks isoTimeValue nowExample (Some ana) storageExample))
    by (vm_compute; tauto).
  split; [exact Hin|]. split; [reflexivity|].
  intros C. destruct (C _ Hin) as [Hn _]. discriminate Hn.
Qed.

Lemma load_normalizes_witness :
  exists t,
    clean thirtyDaysOld = clean t /\
    isWithinLast30Days isoTimeValue nowExample (getField "createdAt" t) = true /\
    getField "isTimerRunning" (clean thirtyDaysOld) = JBool true /\
    getField "timeSpent" (clean thirtyDaysOld) = JNum 0.
Proof.
  destruct (load_normalizes isoTimeValue nowExample (Some ana) storageExample
              (clean thirtyDaysOld))
    as [t [He [Hw [Hr [_ [Hz _]]]]]].
  - vm_compute. tauto.
  - exists t. split; [exact He|]. split; [exact Hw|].
    split; [reflexivity|]. reflexivity.
Defined.


(* ================================================================== *)
(** * Part III. Further properties of the code *)
(* ================================================================== *)

(** ** Removing tasks *)

Lemma filter_same_iff {A : Type} (f : A -> bool) (l : list A) :
  filter f l = l <-> forall x, In x l -> f x = true.
Proof.
  split.
  - intros H. apply forallb_forall, filter_length_forallb. now rewrite H.
  - intros H. apply forallb_filter_id, forallb_forall, H.
Qed.

Lemma filter_idem {A : Type} (f : A -> bool) (l : list A) :
  filter f (filter f l) = filter f l.
Proof. apply forallb_filter_id, forallb_filter. Qed.

(** X1. [deleteTask i] keeps, in their order, exactly the tasks whose
    identifier is not [i]: no task of the result has identifier [i], the
    sequence of the tasks with another identifier is the same before and
    after, and deleting from two collections put end to end is deleting
    from each. It leaves the collection as it is exactly when no task has
    identifier [i]; deleting twice is deleting once. *)
Theorem deleteTask_removes (i : string) (ts : list Task) :
  Forall (fun t => id t <> i) (deleteTask i ts) /\
  filter (fun t => negb (hasId i t)) (deleteTask i ts)
  = filter (fun t => negb (hasId i t)) ts /\
  (forall l1 l2, deleteTask i (l1 ++ l2)%list
                 = (deleteTask i l1 ++ deleteTask i l2)%list) /\
  (forall t, deleteTask i [t] = if hasId i t then [] else [t]) /\
  (forall t, In t (deleteTask i ts) <-> In t ts /\ id t <> i) /\
  (deleteTask i ts = ts <-> forall t, In t ts -> id t <> i) /\
  deleteTask i (deleteTask i ts) = deleteTask i ts.
Proof.
  unfold deleteTask, hasId. split; [|split; [|split; [|split; [|split; [|split]]]]].
  - apply Forall_forall. intros t Hin. apply filter_In in Hin as [_ H].
    now apply String.eqb_neq, negb_true_iff.
  - apply filter_idem.
  - intros l1 l2. apply filter_app.
  - intros t. simpl. now destruct (String.eqb (id t) i).
  - intros t. rewrite filter_In, negb_true_iff, String.eqb_neq. reflexivity.
  - rewrite filter_same_iff. split; intros H t Hin.
    + apply String.eqb_neq, negb_true_iff. now apply H.
    + apply negb_true_iff, String.eqb_neq. now apply H.
  - apply filter_idem.
Qed.

Lemma hasCompleted_exists (ts : list Task) :
  hasCompleted ts = true <-> exists t, In t ts /\ completed t = true.
Proof.
  unfold hasCompleted. rewrite Nat.ltb_lt. split.
  - intros H. destruct (filter (fun t => completed t) ts) as [|t r] eqn:E.
    + simpl in H. lia.
    + exists t. apply (filter_In (fun t => completed t)). rewrite E. now left.
  - intros [t [Hin Hc]].
    assert (Hf : In t (filter (fun t => completed t) ts))
      by (apply filter_In; now split).
    destruct (filter (fun t => completed t) ts); [destruct Hf | simpl; lia].
Qed.

(** X2. After [clearCompleted] no task is completed and the pending tasks
    are all there in their order; the collection changes exactly when
    [hasCompleted] holds; in the monthly snapshot of the result, completed
    is 0 and total and pending are both the pending count of before. *)
Theorem clearCompleted_effect (ts : list Task) :
  (forall t, In t (clearCompleted ts) <-> In t ts /\ completed t = false) /\
  (clearCompleted ts = ts <-> hasCompleted ts = false) /\
  clearCompleted (clearCompleted ts) = clearCompleted ts /\
  monthlyStats (clearCompleted ts)
  = mkStats (pending (monthlyStats ts)) (pending (monthlyStats ts)) 0.
Proof.
  unfold clearCompleted. split; [|split; [|split]].
  - intros t. now rewrite filter_In, negb_true_iff.
  - rewrite filter_same_iff. split.
    + intros H. destruct (hasCompleted ts) eqn:E; [|reflexivity].
      apply hasCompleted_exists in E as [t [Hin Hc]].
      specialize (H t Hin). rewrite Hc in H. discriminate H.
    + intros H t Hin. destruct (completed t) eqn:Hc; [|reflexivity].
      assert (E : hasCompleted ts = true)
        by (apply hasCompleted_exists; now exists t).
      congruence.
  - apply filter_idem.
  - unfold monthlyStats; cbn [pending]. rewrite filter_idem.
    f_equal.
    rewrite length_filter_count.
    induction ts as [|t r IH]; simpl; [reflexivity|].
    destruct (completed t) eqn:Hc; simpl; [exact IH|].
    rewrite Hc. exact IH.
Qed.

(** ** Views and snapshots *)

Lemma Permutation_filter_split {A : Type} (f : A -> bool) (l : list A) :
  Permutation (filter (fun x => negb (f x)) l ++ filter f l) l.
Proof.
  induction l as [|a l IH]; simpl; [constructor|].
  destruct (f a); simpl.
  - apply Permutation_sym, Permutation_cons_app, Permutation_sym, IH.
  - now constructor.
Qed.

(** X3. The three views of [filteredTasks]: All is the collection itself;
    Pending and Completed together hold every task exactly once; their
    lengths are the pending and completed counts of the monthly snapshot;
    and the Pending view is what [clearCompleted] would leave. *)
Theorem filteredTasks_partition (ts : list Task) :
  filteredTasks ALL ts = ts /\
  Permutation (filteredTasks PENDING ts ++ filteredTasks COMPLETED ts) ts /\
  (forall t, In t (filteredTasks PENDING ts) ->
             ~ In t (filteredTasks COMPLETED ts)) /\
  List.length (filteredTasks PENDING ts) = pending (monthlyStats ts) /\
  List.length (filteredTasks COMPLETED ts) = completed_count (monthlyStats ts) /\
  filteredTasks PENDING ts = clearCompleted ts.
Proof.
  unfold filteredTasks. split; [reflexivity|]. split; [|split].
  - apply (Permutation_filter_split (fun t => completed t)).
  - intros t Hp Hc. apply filter_In in Hp as [_ Hp], Hc as [_ Hc].
    rewrite Hc in Hp. discriminate Hp.
  - repeat split.
Qed.

Lemma count_ext_in (p q : Task -> bool) (ts : list Task) :
  (forall t, In t ts -> p t = q t) -> count p ts = count q ts.
Proof.
  induction ts as [|t r IH]; intros H; simpl; [reflexivity|].
  rewrite (H t (or_introl eq_refl)), IH; [reflexivity|].
  intros t0 H0. apply H. now right.
Qed.

Lemma count_map (p : Task -> bool) (f : Task -> Task) (ts : list Task) :
  count p (map f ts) = count (fun t => p (f t)) ts.
Proof.
  induction ts as [|t r IH]; simpl; [reflexivity|]. now rewrite IH.
Qed.

Section SnapshotProperties.

Variable timeValue : JsValue -> option Z.
Variable localDay : Z -> Z.
Variable now : Z.

(** X4. How the two snapshots relate: the monthly total is the sum of its
    pending and completed counts; both snapshots show the same pending
    count; the daily completed count and total never exceed the monthly
    ones; and the two totals are equal exactly when every completed task
    was created today. *)
Theorem snapshots_related (ts : list Task) :
  total (monthlyStats ts)
    = (pending (monthlyStats ts) + completed_count (monthlyStats ts))%nat /\
  pending (dailyStats timeValue localDay now ts) = pending (monthlyStats ts) /\
  (completed_count (dailyStats timeValue localDay now ts)
   <= completed_count (monthlyStats ts))%nat /\
  (total (dailyStats timeValue localDay now ts) <= total (monthlyStats ts))%nat /\
  (total (dailyStats timeValue localDay now ts) = total (monthlyStats ts) <->
   forall t, In t ts -> completed t = true ->
             isToday timeValue localDay now (createdAt t) = true).
Proof.
  unfold dailyStats, monthlyStats; cbn [pending completed_count total].
  rewrite !length_filter_count.
  pose proof (count_partition (fun t => completed t) ts) as Hpart.
  assert (Hle :
    (count (fun t => completed t
                     && isToday timeValue localDay now (createdAt t)) ts
     <= count (fun t => completed t) ts)%nat).
  { apply count_le. intros t H. now apply andb_true_iff in H as [H _]. }
  split; [exact Hpart|]. split; [reflexivity|]. split; [exact Hle|].
  split; [lia|]. split.
  - intros Heq t Hin Hc.
    destruct (isToday timeValue localDay now (createdAt t)) eqn:Et;
      [reflexivity|].
    assert (Hlt :
      (count (fun t => completed t
                       && isToday timeValue localDay now (createdAt t)) ts
       < count (fun t => completed t) ts)%nat).
    { apply count_lt.
      - intros t0 H0. now apply andb_true_iff in H0 as [H0 _].
      - exists t. split; [assumption|]. split; [assumption|].
        now rewrite Hc, Et. }
    lia.
  - intros H.
    rewrite (count_ext_in
               (fun t => completed t
                         && isToday timeValue localDay now (createdAt t))
               (fun t => completed t) ts); [lia|].
    intros t Hin. destruct (completed t) eqn:Hc; [|reflexivity].
    simpl. now apply H.
Qed.

End SnapshotProperties.

Lemma monthlyStats_flags (f : Task -> Task) (ts : list Task) :
  (forall t, completed (f t) = completed t) ->
  monthlyStats (map f ts) = monthlyStats ts.
Proof.
  intros H. unfold monthlyStats.
  rewrite !length_filter_count, !count_map, length_map.
  f_equal; apply count_ext_in; intros t _; now rewrite H.
Qed.

(** X5. How the monthly snapshot follows the operations: an accepted
    [Create] adds one to total and to pending; starting or stopping a timer,
    editing a text and a timer tick change nothing; [toggleTask i] keeps the
    total and moves between pending and completed as many tasks as have
    identifier [i] in each state. *)
Theorem monthlyStats_follows (ts : list Task) :
  (forall raw uuid nowIso, trim raw <> "" ->
     monthlyStats (step (Create raw uuid nowIso) ts)
     = mkStats (S (total (monthlyStats ts))) (S (pending (monthlyStats ts)))
               (completed_count (monthlyStats ts))) /\
  (forall o, inPlace o = true ->
     total (monthlyStats (step o ts)) = total (monthlyStats ts)) /\
  (forall i, monthlyStats (toggleTimer i ts) = monthlyStats ts) /\
  (forall i newText, monthlyStats (editTask i newText ts) = monthlyStats ts) /\
  monthlyStats (tick ts) = monthlyStats ts /\
  (forall i,
     (pending (monthlyStats (toggleTask i ts))
      + count (fun t => hasId i t && negb (completed t)) ts
      = pending (monthlyStats ts)
        + count (fun t => hasId i t && completed t) ts)%nat).
Proof.
  assert (Htimer : forall i, monthlyStats (toggleTimer i ts) = monthlyStats ts).
  { intros i. apply monthlyStats_flags. intros t.
    now destruct (String.eqb (id t) i). }
  assert (Hedit : forall i newText,
            monthlyStats (editTask i newText ts) = monthlyStats ts).
  { intros i newText. unfold editTask.
    destruct (isEmpty (trim newText)); [reflexivity|].
    apply monthlyStats_flags. intros t. now destruct (String.eqb (id t) i). }
  assert (Htick : monthlyStats (tick ts) = monthlyStats ts).
  { apply monthlyStats_flags. intros t. now destruct (isTimerRunning t). }
  split; [|split; [|split; [|split; [|split]]]];
    try assumption.
  - intros raw uuid nowIso Hne. apply isEmpty_false in Hne.
    unfold step, addTask; cbn [inputValue tasks]. rewrite Hne. reflexivity.
  - intros o Ho. destruct o as [raw uuid nowIso|i|i|i newText|i| |];
      try discriminate Ho; cbn [step].
    + unfold toggleTask, monthlyStats; cbn [total]. apply length_map.
    + now rewrite Htimer.
    + now rewrite Hedit.
    + now rewrite Htick.
  - intros i. unfold monthlyStats, toggleTask, hasId; cbn [pending].
    rewrite !length_filter_count, count_map.
    clear Htimer Hedit Htick.
    induction ts as [|t r IH]; simpl; [reflexivity|].
    destruct (String.eqb (id t) i); destruct (completed t) eqn:Hc;
      cbn; rewrite ?Hc; cbn; lia.
Qed.

Lemma monthlyStats_follows_witness :
  monthlyStats (step (Create "buy milk" "id-7" "2026-11-02T09:00:00.000Z")
                  [walkDone; reportPending])
  = mkStats 3 2 1.
Proof.
  apply (proj1 (monthlyStats_follows [walkDone; reportPending])).
  vm_compute. discriminate.
Defined.

(** ** How the operations combine *)

Lemma map_self {A : Type} (f : A -> A) (l : list A) :
  (forall x, In x l -> f x = x) -> map f l = l.
Proof.
  induction l as [|a l IH]; intros H; simpl; [reflexivity|].
  rewrite (H a (or_introl eq_refl)), IH; [reflexivity|].
  intros x Hx. apply H. now right.
Qed.

(** X6. [toggleTimer i] applied twice gives the collection back, whatever
    the state of the tasks. *)
Theorem toggleTimer_twice (i : string) (ts : list Task) :
  toggleTimer i (toggleTimer i ts) = ts.
Proof.
  unfold toggleTimer. rewrite map_map. apply map_self. intros t _.
  destruct (String.eqb (id t) i) eqn:Ei; cbn [id]; rewrite Ei; [|reflexivity].
  destruct t as [a b c d e f g h]; cbn. now rewrite negb_involutive.
Qed.

(** X7. An event aimed at the identifier [i] (toggleComplete, toggleTimer,
    edit, delete) leaves the tasks with another identifier as they are and
    in their order. *)
Theorem step_frame (o : Op) (i : string) (ts : list Task) :
  target o = Some i ->
  filter (fun t => negb (hasId i t)) (step o ts)
  = filter (fun t => negb (hasId i t)) ts.
Proof.
  assert (Hmap : forall f : Task -> Task,
            (forall t, hasId i (f t) = hasId i t) ->
            (forall t, hasId i t = false -> f t = t) ->
            filter (fun t => negb (hasId i t)) (map f ts)
            = filter (fun t => negb (hasId i t)) ts).
  { intros f Hid Hf. induction ts as [|t r IH]; simpl; [reflexivity|].
    rewrite Hid. destruct (hasId i t) eqn:E; simpl; [exact IH|].
    now rewrite (Hf t E), IH. }
  unfold hasId in *.
  destruct o as [raw uuid nowIso|j|j|j newText|j| |]; simpl;
    intros Ht; try discriminate Ht; injection Ht as ->.
  - apply Hmap; intros t;
      [destruct (String.eqb (id t) i) eqn:E; cbn; now rewrite ?E|].
    now intros ->.
  - apply Hmap; intros t;
      [destruct (String.eqb (id t) i) eqn:E; cbn; now rewrite ?E|].
    now intros ->.
  - unfold editTask. destruct (isEmpty (trim newText)); [reflexivity|].
    apply Hmap; intros t;
      [destruct (String.eqb (id t) i) eqn:E; cbn; now rewrite ?E|].
    now intros ->.
  - unfold deleteTask. apply filter_idem.
Qed.

Lemma step_frame_witness :
  filter (fun t => negb (hasId "id-0" t))
    (step (ToggleComplete "id-0") [walkDone; reportPending; gymDoneToday])
  = [reportPending; gymDoneToday].
Proof.
  rewrite (step_frame (ToggleComplete "id-0") "id-0"
             [walkDone; reportPending; gymDoneToday]); reflexivity.
Defined.

(** X8. Two events aimed at different identifiers can be applied in either
    order. *)
Theorem step_commute (o1 o2 : Op) (i j : string) (ts : list Task) :
  target o1 = Some i -> target o2 = Some j -> i <> j ->
  step o1 (step o2 ts) = step o2 (step o1 ts).
Proof.
  intros H1 H2 Hne.
  assert (Hx : forall t, String.eqb (id t) i = true ->
                         String.eqb (id t) j = false).
  { intros t Hi. apply String.eqb_eq in Hi. apply String.eqb_neq. congruence. }
  destruct o1 as [r1 u1 n1|i1|i1|i1 x1|i1| |]; try discriminate H1;
    injection H1 as ->;
    destruct o2 as [r2 u2 n2|i2|i2|i2 x2|i2| |]; try discriminate H2;
    injection H2 as ->;
    cbn [step]; unfold toggleTask, toggleTimer, editTask, deleteTask;
    try destruct (isEmpty (trim x1)); try destruct (isEmpty (trim x2));
    try reflexivity;
    (induction ts as [|t r IH]; [reflexivity|]); simpl;
    (destruct (String.eqb (id t) i) eqn:Ei;
     [ pose proof (Hx t Ei) as Ej | destruct (String.eqb (id t) j) eqn:Ej ]);
    cbn; rewrite ?Ei, ?Ej; cbn; rewrite ?Ei, ?Ej;
    solve [ now rewrite IH | exact IH ].
Qed.

Lemma step_commute_witness :
  step (ToggleComplete "id-1") (step (Delete "id-0") [walkDone; reportPending])
  = step (Delete "id-0") (step (ToggleComplete "id-1") [walkDone; reportPending]).
Proof.
  apply (step_commute (ToggleComplete "id-1") (Delete "id-0") "id-1" "id-0");
    [reflexivity | reflexivity | discriminate].
Defined.

(** ** Identity of the tasks *)

Lemma map_id_inPlace (f : Task -> Task) (ts : list Task) :
  (forall t, sameIdentity t (f t)) ->
  map id (map f ts) = map id ts /\
  map createdAt (map f ts) = map createdAt ts /\
  map priority (map f ts) = map priority ts /\
  map tags (map f ts) = map tags ts.
Proof.
  intros H. rewrite !map_map.
  repeat split; apply map_ext; intros t; now destruct (H t) as [A [B [C D]]].
Qed.

Lemma step_inPlace (o : Op) (ts : list Task) :
  inPlace o = true ->
  map id (step o ts) = map id ts /\
  map createdAt (step o ts) = map createdAt ts /\
  map priority (step o ts) = map priority ts /\
  map tags (step o ts) = map tags ts.
Proof.
  destruct o as [raw uuid nowIso|i|i|i newText|i| |]; intros Ho;
    try discriminate Ho; cbn [step].
  - apply map_id_inPlace. intros t.
    destruct (String.eqb (id t) i); repeat split.
  - apply map_id_inPlace. intros t.
    destruct (String.eqb (id t) i); repeat split.
  - unfold editTask. destruct (isEmpty (trim newText)); [repeat split|].
    apply map_id_inPlace. intros t.
    destruct (String.eqb (id t) i); repeat split.
  - apply map_id_inPlace. intros t.
    destruct (isTimerRunning t); repeat split.
Qed.

(** X9. The events that rewrite tasks in place (toggleComplete, toggleTimer,
    edit, tick) keep the number and the order of the tasks: the sequences of
    identifiers, creation timestamps, priorities and tags are the same
    before and after. *)
Theorem inPlace_keeps_identity (o : Op) (ts : list Task) :
  inPlace o = true ->
  List.length (step o ts) = List.length ts /\
  map id (step o ts) = map id ts /\
  map createdAt (step o ts) = map createdAt ts /\
  map priority (step o ts) = map priority ts /\
  map tags (step o ts) = map tags ts.
Proof.
  intros Ho. pose proof (step_inPlace o ts Ho) as H.
  split; [|exact H]. destruct H as [H _].
  rewrite <- (length_map id (step o ts)), H. apply length_map.
Qed.

Lemma inPlace_keeps_identity_witness :
  map id (step (Edit "id-1" "urgent report") [walkDone; reportPending])
    = ["id-0"; "id-1"] /\
  map priority (step (Edit "id-1" "urgent report") [walkDone; reportPending])
    = [LOW; MEDIUM].
Proof.
  destruct (inPlace_keeps_identity (Edit "id-1" "urgent report")
              [walkDone; reportPending]) as [_ [A [_ [C _]]]];
    [reflexivity|].
  split; [exact A | exact C].
Defined.

Lemma NoDup_map_filter {A B : Type} (g : A -> B) (f : A -> bool) (l : list A) :
  NoDup (map g l) -> NoDup (map g (filter f l)).
Proof.
  induction l as [|a l IH]; simpl; intros H; [constructor|].
  inversion H as [|? ? Hn Hl]; subst.
  destruct (f a); simpl; [|now apply IH].
  constructor; [|now apply IH].
  intros C. apply Hn. apply in_map_iff in C as [x [Hx Hin]].
  apply in_map_iff. exists x. split; [assumption|].
  now apply filter_In in Hin as [Hin _].
Qed.

Lemma step_ids_unique (o : Op) (ts : list Task) :
  freshCreate o ts = true ->
  NoDup (map id ts) -> NoDup (map id (step o ts)).
Proof.
  intros Hf Hn.
  destruct o as [raw uuid nowIso|i|i|i newText|i| |].
  - cbn [step]. unfold addTask; cbn [inputValue tasks].
    destruct (isEmpty (trim raw)); cbn [tasks]; [assumption|].
    simpl. constructor; [|assumption].
    intros C. apply in_map_iff in C as [t [Ht Hin]].
    simpl in Hf. apply negb_true_iff in Hf.
    assert (Hex : existsb (hasId uuid) ts = true).
    { apply existsb_exists. exists t. split; [assumption|].
      unfold hasId. now apply String.eqb_eq. }
    congruence.
  - now rewrite (proj1 (step_inPlace (ToggleComplete i) ts eq_refl)).
  - now rewrite (proj1 (step_inPlace (ToggleTimer i) ts eq_refl)).
  - now rewrite (proj1 (step_inPlace (Edit i newText) ts eq_refl)).
  - now apply NoDup_map_filter.
  - now apply NoDup_map_filter.
  - now rewrite (proj1 (step_inPlace Tick ts eq_refl)).
Qed.

(** X10. Identifiers stay unique: when no two tasks share an identifier and
    every [Create] brings an identifier that no task of the collection has
    at that moment, no two tasks share an identifier after any sequence of
    operations and ticks. *)
Theorem ids_stay_unique (ops : list Op) (ts : list Task) :
  freshRun ops ts = true ->
  NoDup (map id ts) -> NoDup (map id (run ops ts)).
Proof.
  revert ts. induction ops as [|o r IH]; intros ts Hf Hn; simpl; [assumption|].
  simpl in Hf. apply andb_true_iff in Hf as [Ho Hr].
  apply IH; [assumption|]. now apply step_ids_unique.
Qed.

Lemma ids_stay_unique_witness :
  NoDup (map id
    (run [Create "email the report" "id-1" "2026-11-02T09:00:00.000Z";
          ToggleTimer "id-1"; Tick; Delete "id-0";
          Create "gym" "id-0" "2026-11-02T09:05:00.000Z"; ClearCompleted]
         [walkDone])).
Proof.
  apply ids_stay_unique.
  - vm_compute. reflexivity.
  - simpl. constructor; [intros [] | constructor].
Defined.

(** X11. Creating a task under an identifier that no task has and deleting
    that identifier gives the collection back, whatever the input text. *)
Theorem create_then_delete (raw uuid nowIso : string) (ts : list Task) :
  (forall t, In t ts -> id t <> uuid) ->
  deleteTask uuid (step (Create raw uuid nowIso) ts) = ts.
Proof.
  intros Hf.
  assert (Hd : deleteTask uuid ts = ts).
  { unfold deleteTask. apply filter_same_iff. intros t Hin.
    apply negb_true_iff, String.eqb_neq. now apply Hf. }
  cbn [step]. unfold addTask; cbn [inputValue tasks].
  destruct (isEmpty (trim raw)); cbn [tasks]; [exact Hd|].
  unfold deleteTask in *. simpl. rewrite String.eqb_refl. simpl. exact Hd.
Qed.

Lemma create_then_delete_witness :
  deleteTask "id-1"
    (step (Create "email the report" "id-1" "2026-11-02T09:00:00.000Z") [walkDone])
  = [walkDone].
Proof.
  apply create_then_delete. intros t [<-|[]]. vm_compute. discriminate.
Defined.

(** ** The timer *)

Lemma withTime_same (t : Task) : withTime (timeSpent t) t = t.
Proof. now destruct t. Qed.

Lemma run_ticks (n : nat) (ts : list Task) :
  run (repeat Tick n) ts
  = map (fun t => if isTimerRunning t
                  then withTime (Nat.iter n plusOne (timeSpent t)) t else t) ts.
Proof.
  revert ts. induction n as [|n IH]; intros ts.
  - simpl. symmetry. apply map_self. intros t _.
    destruct (isTimerRunning t); [apply withTime_same | reflexivity].
  - cbn [repeat run step]. rewrite IH. unfold tick. rewrite map_map.
    apply map_ext. intros t. cbn beta.
    destruct (isTimerRunning t) eqn:E; cbn [isTimerRunning]; rewrite ?E;
      [|reflexivity].
    unfold withTime; cbn. rewrite ?E. f_equal. symmetry.
    exact (@Nat.iter_succ_r n Z plusOne (timeSpent t)).
Qed.

(** X12. [n] ticks in a row change no flag, and add exactly [n] seconds to
    every task whose timer is running, provided the times of the running
    tasks stay among the integers that the addition of numbers handles
    exactly (from -2^53 to 2^53, the [n] seconds included); the other tasks
    stay as they are. A collection whose running tasks all stand at 2^53 is
    left as it is. *)
Theorem ticks_add_seconds (n : nat) (ts : list Task) :
  (Forall (fun t => isTimerRunning t = true -> exactFor n t) ts ->
   run (repeat Tick n) ts
   = map (fun t => if isTimerRunning t
                   then addSeconds (Z.of_nat n) t else t) ts) /\
  map isTimerRunning (run (repeat Tick n) ts) = map isTimerRunning ts /\
  map completed (run (repeat Tick n) ts) = map completed ts /\
  (Forall (fun t => isTimerRunning t = true -> timeSpent t = TWO53) ts ->
   run (repeat Tick n) ts = ts).
Proof.
  rewrite run_ticks, !map_map. split; [|split; [|split]].
  - intros H. rewrite Forall_forall in H. apply map_ext_in. intros t Hin.
    destruct (isTimerRunning t) eqn:E; [|reflexivity].
    destruct (H t Hin E) as [Hlo Hhi].
    unfold withTime, addSeconds. now rewrite iter_plusOne_exact.
  - apply map_ext. intros t. now destruct (isTimerRunning t) eqn:E.
  - apply map_ext. intros t. now destruct (isTimerRunning t) eqn:E.
  - intros H. rewrite Forall_forall in H. apply map_self. intros t Hin.
    destruct (isTimerRunning t) eqn:E; [|reflexivity].
    assert (Hsat : Nat.iter n plusOne TWO53 = TWO53).
    { clear. induction n as [|n IH]; [reflexivity|].
      rewrite Nat.iter_succ, IH. reflexivity. }
    rewrite (H t Hin E), Hsat, <- (H t Hin E). apply withTime_same.
Qed.

Lemma ticks_add_seconds_witness :
  run (repeat Tick 3)
      [walkDone;
       mkTask "id-1" "Email the report" false "2026-10-20T10:30:00.000Z"
              MEDIUM [] 0 true]
  = [walkDone;
     mkTask "id-1" "Email the report" false "2026-10-20T10:30:00.000Z"
            MEDIUM [] 3 true].
Proof.
  rewrite (proj1 (ticks_add_seconds 3
             [walkDone;
              mkTask "id-1" "Email the report" false "2026-10-20T10:30:00.000Z"
                     MEDIUM [] 0 true])).
  - reflexivity.
  - constructor; [discriminate|].
    constructor; [|constructor].
    intros _. unfold exactFor. vm_compute. split; discriminate.
Defined.

Lemma run_app (a b : list Op) (ts : list Task) :
  run (a ++ b) ts = run b (run a ts).
Proof.
  revert ts. induction a as [|o a IH]; intros ts; simpl; [reflexivity|].
  apply IH.
Qed.

(** X19. A timer session: starting the timer of [i], letting [n] ticks pass
    and stopping it again adds [n] seconds to the tasks with identifier [i]
    that were stopped and to the other tasks that were running, and leaves
    every flag and every other task as it was, provided the times of the
    tasks that count stay among the integers that the addition of numbers
    handles exactly (from -2^53 to 2^53, the [n] seconds included). *)
Theorem timer_session (i : string) (n : nat) (ts : list Task) :
  Forall (fun t => xorb (hasId i t) (isTimerRunning t) = true -> exactFor n t)
         ts ->
  run (ToggleTimer i :: repeat Tick n ++ [ToggleTimer i]) ts
  = map (fun t => if xorb (hasId i t) (isTimerRunning t)
                  then addSeconds (Z.of_nat n) t else t) ts.
Proof.
  intros H. rewrite Forall_forall in H.
  cbn [run step]. rewrite run_app, run_ticks. cbn [run step].
  unfold toggleTimer. rewrite !map_map. apply map_ext_in. intros t Hin.
  specialize (H t Hin). unfold hasId, exactFor in *.
  destruct t as [a b c d e f g h]; cbn in *.
  destruct (String.eqb a i) eqn:Ei; cbn in *; destruct h; cbn in *;
    rewrite ?Ei; cbn; try reflexivity;
    destruct (H eq_refl) as [Hlo Hhi];
    unfold withTime, addSeconds; cbn; now rewrite iter_plusOne_exact.
Qed.

Lemma timer_session_witness :
  run (ToggleTimer "id-1" :: repeat Tick 3 ++ [ToggleTimer "id-1"])
      [walkDone; reportPending]
  = [walkDone;
     mkTask "id-1" "Email the report" false "2026-10-20T10:30:00.000Z"
            MEDIUM [] 3 false].
Proof.
  rewrite (timer_session "id-1" 3 [walkDone; reportPending]).
  - reflexivity.
  - constructor; [discriminate|].
    constructor; [|constructor].
    intros _. unfold exactFor. vm_compute. split; discriminate.
Defined.

(** X20. Completing a task freezes its time: after [toggleTask i] on pending
    tasks, however many ticks follow, the tasks with identifier [i] that
    were pending are completed, stopped, and have the time they had. *)
Theorem completion_freezes_time (i : string) (n : nat) (ts : list Task) :
  Forall2 (fun t t' =>
             hasId i t = true -> completed t = false ->
             completed t' = true /\ isTimerRunning t' = false /\
             timeSpent t' = timeSpent t /\ sameIdentity t t')
          ts (run (ToggleComplete i :: repeat Tick n) ts).
Proof.
  cbn [run step]. rewrite run_ticks. unfold toggleTask. rewrite map_map.
  apply Forall2_map_self. intros t Hi Hc. unfold hasId in Hi.
  rewrite Hi, Hc. cbn. repeat split.
Qed.

Lemma completion_freezes_time_witness :
  Forall2 (fun t t' =>
             hasId "id-1" t = true -> completed t = false ->
             completed t' = true /\ isTimerRunning t' = false /\
             timeSpent t' = timeSpent t /\ sameIdentity t t')
          [reportPending]
          (run (ToggleComplete "id-1" :: repeat Tick 3) [reportPending]).
Proof.
  apply (completion_freezes_time "id-1" 3 [reportPending]).
Defined.

Lemma someRunning_filter (ts : list Task) :
  someRunning ts = negb (List.length (filter isTimerRunning ts) =? 0)%nat.
Proof.
  unfold someRunning. induction ts as [|t r IH]; simpl; [reflexivity|].
  destruct (isTimerRunning t); simpl; [reflexivity | exact IH].
Qed.

(** X13. The guard of the timer effect and its dependency agree: for a
    logged-in user the interval is armed exactly when [tasks.some(t =>
    t.isTimerRunning)] holds, and never without a user. A tick does not
    change whether the interval is armed, and when it is not armed a tick
    would change nothing. *)
Theorem timer_guard (currentUser : option User) (ts : list Task) :
  timerArmed currentUser ts
  = (match currentUser with Some _ => true | None => false end
     && someRunning ts) /\
  timerArmed currentUser (tick ts) = timerArmed currentUser ts /\
  (someRunning ts = false -> tick ts = ts).
Proof.
  assert (Hsome : someRunning (tick ts) = someRunning ts).
  { unfold someRunning, tick. induction ts as [|t r IH]; simpl; [reflexivity|].
    rewrite IH. now destruct (isTimerRunning t) eqn:E; cbn; rewrite ?E. }
  split; [|split].
  - unfold timerArmed. destruct currentUser; [|reflexivity].
    now rewrite someRunning_filter.
  - unfold timerArmed. destruct currentUser; [|reflexivity].
    now rewrite <- !someRunning_filter.
  - intros H. apply (tick_idle (Some (mkUser "" ""))); [discriminate|].
    unfold timerArmed. now rewrite <- someRunning_filter, H.
Qed.

(** ** Blank input and repeated edits *)

Lemma stripStart_allWhite (s : string) :
  stripStart isWhiteSpace s = "" <-> allWhite s = true.
Proof.
  induction s as [|c r IH]; simpl; [tauto|].
  destruct (isWhiteSpace c); simpl; [exact IH|].
  split; discriminate.
Qed.

Lemma stripStart_head (p : ascii -> bool) (s : string) (c : ascii) (r : string) :
  stripStart p s = String c r -> p c = false.
Proof.
  induction s as [|a s IH]; simpl; [discriminate|].
  destruct (p a) eqn:E; [exact IH|].
  intros H. injection H as -> _. exact E.
Qed.

Lemma trim_empty_iff (s : string) : trim s = "" <-> allWhite s = true.
Proof.
  split; [|apply trim_allWhite].
  unfold trim, strip. intros H. apply stripStart_allWhite.
  destruct (stripStart isWhiteSpace s) as [|c r] eqn:E; [reflexivity|].
  apply stripStart_head in E. simpl in H. rewrite E in H. discriminate H.
Qed.

(** X14. [addTask] refuses an input exactly when it is made of white space
    only (the empty text included): then, and only then, it shows the
    validation message and keeps the collection; otherwise it adds exactly
    one record and clears both the input field and the message. [editTask]
    with such a text changes nothing. *)
Theorem blank_input_characterized (uuid nowIso : string) (st : AppState) :
  (error (addTask uuid nowIso st) = Some VALIDATION_MESSAGE <->
   allWhite (inputValue st) = true) /\
  (tasks (addTask uuid nowIso st) = tasks st <->
   allWhite (inputValue st) = true) /\
  (allWhite (inputValue st) = false ->
   List.length (tasks (addTask uuid nowIso st)) = S (List.length (tasks st)) /\
   tl (tasks (addTask uuid nowIso st)) = tasks st /\
   inputValue (addTask uuid nowIso st) = "" /\
   error (addTask uuid nowIso st) = None) /\
  (forall i newText ts, allWhite newText = true -> editTask i newText ts = ts).
Proof.
  assert (Hedit : forall i newText ts,
            allWhite newText = true -> editTask i newText ts = ts).
  { intros i newText ts H. apply trim_empty_iff in H.
    unfold editTask. now rewrite H. }
  unfold addTask. destruct (allWhite (inputValue st)) eqn:W.
  - pose proof (proj2 (trim_empty_iff _) W) as E. rewrite E. cbn.
    split; [tauto|]. split; [tauto|]. split; [discriminate | exact Hedit].
  - assert (E : isEmpty (trim (inputValue st)) = false).
    { apply isEmpty_false. intros C. apply trim_empty_iff in C. congruence. }
    rewrite E. cbn.
    split; [split; discriminate|].
    split; [|split; [tauto | exact Hedit]].
    split; [|discriminate]. intros C. exfalso.
    apply (f_equal (@List.length Task)) in C. simpl in C. lia.
Qed.

Lemma blank_input_characterized_witness :
  error (addTask "id-1" "2026-11-02T09:00:00.000Z"
           (mkApp [walkDone] "gym at six" (Some VALIDATION_MESSAGE))) = None.
Proof.
  apply (blank_input_characterized "id-1" "2026-11-02T09:00:00.000Z"
           (mkApp [walkDone] "gym at six" (Some VALIDATION_MESSAGE))).
  reflexivity.
Defined.

(** X15. Of two edits of the same identifier the last accepted one decides:
    when the second text is not blank the result is that of the second edit
    alone, and when it is blank the result is that of the first edit;
    repeating an edit changes nothing more. *)
Theorem editTask_last_wins (i s1 s2 : string) (ts : list Task) :
  (trim s2 <> "" -> editTask i s2 (editTask i s1 ts) = editTask i s2 ts) /\
  (trim s2 = "" -> editTask i s2 (editTask i s1 ts) = editTask i s1 ts) /\
  editTask i s1 (editTask i s1 ts) = editTask i s1 ts.
Proof.
  assert (Hgen : forall a b, trim b <> "" ->
            editTask i b (editTask i a ts) = editTask i b ts).
  { intros a b Hb. apply isEmpty_false in Hb. unfold editTask. rewrite Hb.
    destruct (isEmpty (trim a)); [reflexivity|].
    rewrite map_map. apply map_ext. intros t.
    destruct (String.eqb (id t) i) eqn:E; cbn [id]; now rewrite E. }
  split; [apply Hgen|]. split.
  - intros H. unfold editTask at 1. now rewrite H.
  - destruct (isEmpty (trim s1)) eqn:E.
    + unfold editTask. now rewrite E.
    + apply Hgen. now apply isEmpty_false.
Qed.

Lemma editTask_last_wins_witness :
  editTask "id-1" " call the bank " (editTask "id-1" "email them" [reportPending])
  = editTask "id-1" " call the bank " [reportPending].
Proof.
  apply (proj1 (editTask_last_wins "id-1" "email them" " call the bank "
                  [reportPending])).
  vm_compute. discriminate.
Defined.

(** ** Persistence *)

Lemma lookup_setField_same (k : string) (v : JsValue) (t : JsObject) :
  lookup k (setField k v t) = Some v.
Proof.
  induction t as [|[k' v'] r IH]; simpl.
  - now rewrite String.eqb_refl.
  - destruct (String.eqb k' k) eqn:E; simpl; rewrite E; [reflexivity | exact IH].
Qed.

Lemma lookup_setField_other (k k' : string) (v : JsValue) (t : JsObject) :
  k <> k' -> lookup k' (setField k v t) = lookup k' t.
Proof.
  intros Hne. induction t as [|[k1 v1] r IH]; simpl.
  - apply String.eqb_neq in Hne. now rewrite Hne.
  - destruct (String.eqb k1 k) eqn:E; simpl.
    + apply String.eqb_eq in E. subst k1.
      apply String.eqb_neq in Hne. now rewrite Hne.
    + destruct (String.eqb k1 k'); [reflexivity | exact IH].
Qed.

(** Writing to a property the value it has changes nothing. *)
Lemma setField_present (k : string) (v : JsValue) (t : JsObject) :
  lookup k t = Some v -> setField k v t = t.
Proof.
  induction t as [|[k' v'] r IH]; simpl; [discriminate|].
  destruct (String.eqb k' k) eqn:E.
  - intros H. injection H as ->. reflexivity.
  - intros H. now rewrite IH.
Qed.

Lemma truthy_default (v : JsValue) :
  truthy (if truthy v then v else JNum 0) = truthy v.
Proof. destruct (truthy v) eqn:E; [exact E | reflexivity]. Qed.

Lemma clean_idem (t : JsObject) : clean (clean t) = clean t.
Proof.
  assert (Ht : lookup "timeSpent" (clean t)
               = Some (if truthy (getField "timeSpent" t)
                       then getField "timeSpent" t else JNum 0)).
  { unfold clean. rewrite lookup_setField_other by discriminate.
    apply lookup_setField_same. }
  assert (Hr : lookup "isTimerRunning" (clean t)
               = Some (JBool (truthy (getField "isTimerRunning" t)))).
  { unfold clean. apply lookup_setField_same. }
  unfold clean at 1. unfold getField at 1 2 3. rewrite Ht, Hr.
  cbn [truthy]. rewrite truthy_default.
  assert (Hd : (if truthy (getField "timeSpent" t)
                then if truthy (getField "timeSpent" t)
                     then getField "timeSpent" t else JNum 0
                else JNum 0)
               = if truthy (getField "timeSpent" t)
                 then getField "timeSpent" t else JNum 0)
    by now destruct (truthy (getField "timeSpent" t)).
  rewrite Hd. rewrite (setField_present "timeSpent" _ (clean t) Ht).
  now apply setField_present.
Qed.

Lemma clean_toObject (t : Task) : clean (toObject t) = toObject t.
Proof.
  unfold clean, toObject, getField; cbn.
  destruct (timeSpent t =? 0)%Z eqn:E; cbn; [|reflexivity].
  apply Z.eqb_eq in E. now rewrite E.
Qed.

Lemma userStorageKey_nonempty (u : User) :
  isEmpty (userStorageKey (Some u)) = false.
Proof. reflexivity. Qed.

Lemma append_inj_l (p a b : string) : (p ++ a = p ++ b)%string -> a = b.
Proof.
  induction p as [|c p IH]; simpl; [tauto|].
  intros H. injection H as H. now apply IH.
Qed.

Lemma filter_filter_implies {A : Type} (f g : A -> bool) (l : list A) :
  (forall x, g x = true -> f x = true) ->
  filter g (filter f l) = filter g l.
Proof.
  intros H. induction l as [|a l IH]; simpl; [reflexivity|].
  destruct (f a) eqn:Ef; simpl.
  - now rewrite IH.
  - destruct (g a) eqn:Eg; [|exact IH].
    rewrite (H a Eg) in Ef. discriminate Ef.
Qed.

Section PersistenceProperties.

Variable timeValue : JsValue -> option Z.
Variable now : Z.

(** X16. Round trip through the store: what the persistence effect writes
    for a user is what the load effect reads back for that user, record for
    record and in the same order, less the tasks created more than 30 days
    before; the normalization of the load changes nothing in records that
    the application wrote itself. *)
Theorem persist_then_load (u : User) (ts : list Task) (storage : Storage) :
  loadTasks timeValue now (Some u)
    (persistTasks (Some u) (map toObject ts) storage)
  = map toObject
      (filter (fun t => isWithinLast30Days timeValue now (JStr (createdAt t)))
              ts).
Proof.
  unfold persistTasks. rewrite userStorageKey_nonempty.
  unfold loadTasks. change (STORAGE_KEY ++ "_" ++ username u)
    with (userStorageKey (Some u)).
  rewrite userStorageKey_nonempty. unfold setItem. rewrite String.eqb_refl.
  unfold retained. rewrite filter_map_swap, map_map.
  apply map_ext. apply clean_toObject.
Qed.

(** X17. Loading is stable: persisting what a load produced and loading
    again, at the same instant or later, gives what loading the original
    blob at that later instant gives. Records dropped or normalized once are
    not changed further. *)
Theorem reload_stable (u : User) (storage : Storage) (later : Z) :
  now <= later ->
  loadTasks timeValue later (Some u)
    (persistTasks (Some u) (loadTasks timeValue now (Some u) storage) storage)
  = loadTasks timeValue later (Some u) storage.
Proof.
  intros Hle. unfold persistTasks. rewrite userStorageKey_nonempty.
  unfold loadTasks. change (STORAGE_KEY ++ "_" ++ username u)
    with (userStorageKey (Some u)).
  rewrite userStorageKey_nonempty. unfold setItem. rewrite String.eqb_refl.
  destruct (storage (userStorageKey (Some u))) as [parsed|]; [|reflexivity].
  unfold retained. rewrite filter_map_swap, map_map.
  rewrite (map_ext _ clean clean_idem). f_equal.
  rewrite (filter_ext
             (fun a => isWithinLast30Days timeValue later
                         (getField "createdAt" (clean a)))
             (fun a => isWithinLast30Days timeValue later
                         (getField "createdAt" a))).
  2:{ intros t. unfold clean.
      now rewrite !getField_setField_other by discriminate. }
  apply filter_filter_implies. intros t. unfold isWithinLast30Days.
  destruct (timeValue (getField "createdAt" t)) as [c|]; [|discriminate].
  rewrite !Z.leb_le. lia.
Qed.

(** X18. The persistence effect writes under the key of the current user
    only: every other key keeps what it held, and without a user nothing is
    written. The key of a user is never empty, never the key of the session
    or of the theme, and two users with different names have different
    keys; so what one user persists does not change what another user
    loads, and a logout does not erase what the user had saved. *)
Theorem persistence_isolated (currentUser : option User) (ts : list JsObject)
    (storage : Storage) :
  (forall k, k <> userStorageKey currentUser ->
             persistTasks currentUser ts storage k = storage k) /\
  persistTasks None ts storage = storage /\
  (forall u, userStorageKey (Some u) <> "" /\
             userStorageKey (Some u) <> SESSION_KEY /\
             userStorageKey (Some u) <> THEME_KEY) /\
  (forall u1 u2, userStorageKey (Some u1) = userStorageKey (Some u2) ->
                 username u1 = username u2) /\
  (forall u1 u2, username u1 <> username u2 ->
     loadTasks timeValue now (Some u2) (persistTasks (Some u1) ts storage)
     = loadTasks timeValue now (Some u2) storage) /\
  (forall u, loadTasks timeValue now (Some u) (persistTasks None [] storage)
             = loadTasks timeValue now (Some u) storage).
Proof.
  assert (Hinj : forall u1 u2,
            userStorageKey (Some u1) = userStorageKey (Some u2) ->
            username u1 = username u2).
  { intros u1 u2 H. unfold userStorageKey in H.
    apply append_inj_l in H. now apply (append_inj_l "_") in H. }
  assert (Hframe : forall cu k, k <> userStorageKey cu ->
            persistTasks cu ts storage k = storage k).
  { intros cu k Hk. unfold persistTasks. destruct cu as [u|]; [|reflexivity].
    rewrite userStorageKey_nonempty. unfold setItem.
    apply String.eqb_neq in Hk. now rewrite Hk. }
  split; [apply Hframe|]. split; [reflexivity|]. split; [|split; [exact Hinj|split]].
  - intros u. repeat split; discriminate.
  - intros u1 u2 Hne. unfold loadTasks.
    change (STORAGE_KEY ++ "_" ++ username u2) with (userStorageKey (Some u2)).
    rewrite Hframe; [reflexivity|].
    intros C. apply Hne. symmetry. now apply Hinj.
  - reflexivity.
Qed.

End PersistenceProperties.

Lemma reload_stable_witness :
  loadTasks isoTimeValue (nowExample + DAY_MS) (Some ana)
    (persistTasks (Some ana)
       (loadTasks isoTimeValue nowExample (Some ana) storageExample)
       storageExample)
  = loadTasks isoTimeValue (nowExample + DAY_MS) (Some ana) storageExample.
Proof.
  apply reload_stable. vm_compute. discriminate.
Defined.

Lemma persistence_isolated_witness :
  loadTasks isoTimeValue nowExample (Some ana)
    (persistTasks (Some (mkUser "bob" "u-2")) [] storageExample)
  = loadTasks isoTimeValue nowExample (Some ana) storageExample.
Proof.
  destruct (persistence_isolated isoTimeValue nowExample None [] storageExample)
    as [_ [_ [_ [_ [H _]]]]].
  apply (H (mkUser "bob" "u-2") ana). discriminate.
Defined.

(** ** Time is never negative *)

Lemma step_nonnegative (o : Op) (ts : list Task) :
  Forall (fun t => (0 <= timeSpent t)%Z) ts ->
  Forall (fun t => (0 <= timeSpent t)%Z) (step o ts).
Proof.
  intros H. apply Forall_forall. intros t' Hin.
  rewrite Forall_forall in H.
  destruct (step_origin o ts t' Hin)
    as [[raw [uuid [nowIso [_ [_ [_ [_ [Hz _]]]]]]]] | [t [Ht [_ He]]]].
  - rewrite Hz. lia.
  - rewrite He. specialize (H t Ht).
    destruct (isTick o && isTimerRunning t); [|exact H].
    now apply plusOne_nonneg.
Qed.

(** X21. When no task starts with a negative time, no task has a negative
    time after any sequence of operations and ticks. *)
Theorem timeSpent_nonnegative (ops : list Op) (ts : list Task) :
  Forall (fun t => (0 <= timeSpent t)%Z) ts ->
  Forall (fun t => (0 <= timeSpent t)%Z) (run ops ts).
Proof.
  revert ts. induction ops as [|o r IH]; intros ts H; simpl; [assumption|].
  apply IH. now apply step_nonnegative.
Qed.

Lemma timeSpent_nonnegative_witness :
  Forall (fun t => (0 <= timeSpent t)%Z)
    (run [ToggleComplete "id-0"; ToggleTimer "id-0"; Tick; Tick] [walkDone]).
Proof.
  apply timeSpent_nonnegative.
  constructor; [vm_compute; discriminate | constructor].
Defined.

(** ** The further properties at the example data *)

Lemma deleteTask_removes_witness :
  filter (fun t => negb (hasId "id-1" t))
         (deleteTask "id-1" [walkDone; reportPending; gymDoneToday])
  = [walkDone; gymDoneToday] /\
  Forall (fun t => id t <> "id-1")
         (deleteTask "id-1" [walkDone; reportPending; gymDoneToday]) /\
  deleteTask "id-9" [walkDone; reportPending] = [walkDone; reportPending].
Proof.
  split; [|split].
  - rewrite (proj1 (proj2 (deleteTask_removes "id-1"
                             [walkDone; reportPending; gymDoneToday]))).
    reflexivity.
  - apply (proj1 (deleteTask_removes "id-1"
                    [walkDone; reportPending; gymDoneToday])).
  - apply (proj1 (proj2 (proj2 (proj2 (proj2 (proj2
             (deleteTask_removes "id-9" [walkDone; reportPending]))))))).
    intros t [<-|[<-|[]]]; vm_compute; discriminate.
Defined.

Lemma clearCompleted_effect_witness :
  clearCompleted [reportPending] = [reportPending].
Proof.
  apply (proj1 (proj2 (clearCompleted_effect [reportPending]))).
  reflexivity.
Defined.

Lemma filteredTasks_partition_witness :
  ~ In reportPending (filteredTasks COMPLETED [walkDone; reportPending]).
Proof.
  apply (proj1 (proj2 (proj2
           (filteredTasks_partition [walkDone; reportPending])))).
  vm_compute. tauto.
Defined.

Lemma snapshots_related_witness :
  total (dailyStats isoTimeValue utcDay nowExample [reportPending; gymDoneToday])
  = total (monthlyStats [reportPending; gymDoneToday]).
Proof.
  apply (snapshots_related isoTimeValue utcDay nowExample
           [reportPending; gymDoneToday]).
  intros t [<-|[<-|[]]]; [discriminate | reflexivity].
Defined.

Lemma timer_guard_witness : tick [walkDone; reportPending] = [walkDone; reportPending].
Proof.
  apply (proj2 (proj2 (timer_guard (Some ana) [walkDone; reportPending]))).
  reflexivity.
Defined.
